(** * Sign-In With Solana plugin (better-auth-siws): model and verification

    A shallow embedding of [src/index.ts]: the canonical message builder
    [buildSiwsMessage], and the two endpoints [start] and [verify] of
    [siwsPlugin], run against an explicit adapter state. *)

From Stdlib Require Import ZArith NArith List Bool Lia String Ascii.
From Stdlib Require PrimFloat FloatOps SpecFloat.
From stdpp Require Import gmap list fin_maps.

Open Scope Z_scope.

(** ** JavaScript strings

    A JS string is a sequence of UTF-16 code units.  String operations used
    by the plugin ([split], [startsWith], [slice], [trim], [join], [length])
    all work on code units. *)
Module JS.

(** A source-level string literal (ASCII only). *)
Definition lit (s : string) : list N :=
  List.map N_of_ascii (list_ascii_of_string s).

#[global] Arguments lit : simpl never.

(** The code unit of ["\n"]. *)
Definition LF : N := 10%N.

(** [s.startsWith(p)] *)
Fixpoint startsWith (s p : list N) {struct p} : bool :=
  match p, s with
  | [], _ => true
  | _ :: _, [] => false
  | x :: p', c :: s' => (c =? x)%N && startsWith s' p'
  end.

(** [s.split(sep)] for a separator of one code unit: the result is never
    empty, and the empty string splits to one empty line. *)
Fixpoint split (sep : N) (s : list N) : list (list N) :=
  match s with
  | [] => [[]]
  | c :: s' =>
      if (c =? sep)%N then [] :: split sep s'
      else match split sep s' with
           | l :: ls => (c :: l) :: ls
           | [] => [[c]]
           end
  end.

(** [a.join(sep)] on an array of strings. *)
Fixpoint join (sep : list N) (a : list (list N)) : list N :=
  match a with
  | [] => []
  | [x] => x
  | x :: rest => x ++ sep ++ join sep rest
  end.

(** ECMAScript WhiteSpace and LineTerminator code points, the ones
    [String.prototype.trim] strips. *)
Definition is_white_space (c : N) : bool :=
  ((9 <=? c) && (c <=? 13)              (* TAB LF VT FF CR *)
   || (c =? 32) || (c =? 160)           (* SP, NBSP *)
   || (c =? 5760)                       (* U+1680 *)
   || ((8192 <=? c) && (c <=? 8202))    (* U+2000 .. U+200A *)
   || (c =? 8232) || (c =? 8233)        (* LS, PS *)
   || (c =? 8239) || (c =? 8287)        (* U+202F, U+205F *)
   || (c =? 12288) || (c =? 65279))%N.  (* U+3000, BOM *)

Fixpoint trimStart (s : list N) : list N :=
  match s with
  | [] => []
  | c :: s' => if is_white_space c then trimStart s' else s
  end.

Definition trimEnd (s : list N) : list N := rev (trimStart (rev s)).

(** [s.trim()] *)
Definition trim (s : list N) : list N := trimEnd (trimStart s).

(** [s.slice(n)] for [n >= 0]. *)
Definition slice_from (n : nat) (s : list N) : list N := drop n s.

(** [s.slice(0, n)] for [n >= 0]. *)
Definition slice_to (n : nat) (s : list N) : list N := take n s.

(** [s.slice(-n)] for [n > 0]: the last [n] code units, or all of [s]. *)
Definition slice_last (n : nat) (s : list N) : list N :=
  drop (length s - n) s.

(** Truthiness of a string: only the empty string is falsy. *)
Definition truthy (s : list N) : bool :=
  match s with [] => false | _ :: _ => true end.

(** *** Numbers and dates

    A JavaScript number is an IEEE 754 binary64 value, here a primitive
    float; [+] and [*] on numbers are [PrimFloat.add] and [PrimFloat.mul].
    A [Date] holds a time value: a whole number of milliseconds since the
    epoch, or NaN for an Invalid Date, here [None]. *)

(** The number nearest to an integer, as an integer literal or [Date.now()]
    gives it. *)
Definition number_of_Z (z : Z) : PrimFloat.float :=
  FloatOps.SF2Prim
    (SpecFloat.binary_normalize FloatOps.prec FloatOps.emax z 0 false).

(** [new Date(x)] for a number [x]: the time value is [x] truncated towards
    zero; it is NaN when [x] is not finite or beyond 8.64e15 in magnitude
    (numbers of that size have no fraction). *)
Definition newDate (x : PrimFloat.float) : option Z :=
  match FloatOps.Prim2SF x with
  | SpecFloat.S754_zero _ => Some 0
  | SpecFloat.S754_finite sign m e =>
      let t := if 0 <=? e then Z.shiftl (Z.pos m) e
               else Z.shiftr (Z.pos m) (- e) in
      if t <=? 8640000000000000 then Some (if sign then - t else t) else None
  | SpecFloat.S754_infinity _ | SpecFloat.S754_nan => None
  end.

(** [d <= new Date()] when the current time is [now]: the time values are
    compared as numbers, and a comparison with NaN is false. *)
Definition dateNotAfter (d : option Z) (now : Z) : bool :=
  match d with
  | Some t => t <=? now
  | None => false
  end.

End JS.
Import JS.

(** ** Canonical message builder *)

(** The argument object of [buildSiwsMessage]; optional properties are
    options. *)
Record SiwsMessageInput := {
  domain : list N;
  address : list N;
  uri : list N;
  statement : option (list N);
  nonce : list N;
  issuedAt : list N;
  expirationTime : option (list N);
  resources : option (list (list N));
}.

(** [`Resources:\n- ${resources.join("\n- ")}`] *)
Definition resourcesEntry (rs : list (list N)) : list N :=
  lit "Resources:" ++ [LF] ++ lit "- " ++ join ([LF] ++ lit "- ") rs.

Definition buildSiwsMessage (i : SiwsMessageInput) : list N :=
  let lines :=
    [ domain i ++ lit " wants you to sign in with your Solana account:";
      address i;
      [];
      default (lit "Sign in with Solana to the app.") (statement i);
      [];
      lit "URI: " ++ uri i;
      lit "Version: 1";
      lit "Nonce: " ++ nonce i;
      lit "Issued At: " ++ issuedAt i ] in
  let lines :=
    match expirationTime i with
    | Some e => if truthy e then lines ++ [lit "Expiration Time: " ++ e] else lines
    | None => lines
    end in
  let lines :=
    match resources i with
    | Some (r :: rs) => lines ++ [resourcesEntry (r :: rs)]
    | _ => lines
    end in
  join [LF] lines.

(** ** Nonce extraction (step 1 of [verify]) *)

(** [message.split("\n").find(l => l.startsWith("Nonce: "))] *)
Definition nonceLine (message : list N) : option (list N) :=
  List.find (fun l => startsWith l (lit "Nonce: ")) (split LF message).

(** [nonceLine?.slice("Nonce: ".length).trim()] *)
Definition nonceFromMsg (message : list N) : option (list N) :=
  (fun l => trim (slice_from (length (lit "Nonce: ")) l)) <$> nonceLine message.

(** [!nonceFromMsg]: [undefined] and the empty string are falsy. *)
Definition nonceMissing (message : list N) : bool :=
  match nonceFromMsg message with
  | Some n => negb (truthy n)
  | None => true
  end.

(** ** External collaborators *)

(** The cryptographic libraries the plugin calls: [bs58], [TextEncoder] and
    [@noble/ed25519].  They are taken as an interface; a call that throws is
    [None]. *)
Class Crypto := {
  (** [bs58.encode(bytes)] *)
  bs58_encode : list Byte.byte → list N;
  (** [bs58.decode(text)], which throws on a code unit outside the alphabet *)
  bs58_decode : list N → option (list Byte.byte);
  (** [new TextEncoder().encode(text)] *)
  utf8_encode : list N → list Byte.byte;
  (** [ed25519.verifyAsync(signature, message, publicKey)], which throws on
      a signature or key of the wrong size *)
  ed25519_verifyAsync :
    list Byte.byte → list Byte.byte → list Byte.byte → option bool;
}.

(** The store behind [ctx.context.internalAdapter]. *)
Module Adapter.

Record VerificationValue := {
  value : list N;
  expiresAt : option Z;   (* a Date: milliseconds since the epoch, or invalid *)
}.

Record Account := {
  providerId : list N;
  accountId : list N;
  userId : nat;
}.

Record UserData := {
  email : list N;
  emailVerified : bool;
  name : list N;
}.

Record User := {
  id : nat;
  data : UserData;
}.

Record Session := {
  token : nat;
  sessionUserId : nat;
}.

(** Modelled from the spec: the verification-value store, the identity
    store and the session store of better-auth's internal adapter are not
    part of this repository.  Verification values are keyed by
    identifier, accounts by account-id, users by user id. *)
Record t := {
  verifications : gmap (list N) VerificationValue;
  accounts : gmap (list N) Account;
  users : gmap nat UserData;
  sessions : list Session;
}.

Definition empty : t :=
  {| verifications := ∅; accounts := ∅; users := ∅; sessions := [] |}.

(** Modelled from the spec: [create(identifier, value, expiresAt)] of the
    verification-value store; the store is keyed by identifier, so a
    second record for an identifier overwrites the first. *)
Definition createVerificationValue
    (identifier : list N) (v : list N) (e : option Z) (s : t) : t :=
  {| verifications :=
       <[identifier := {| value := v; expiresAt := e |}]> (verifications s);
     accounts := accounts s; users := users s; sessions := sessions s |}.

(** Modelled from the spec: [find(identifier) → {value, expiresAt} | none],
    a read without effect on the store. *)
Definition findVerificationValue
    (identifier : list N) (s : t) : option VerificationValue :=
  verifications s !! identifier.

(** Modelled from the spec: [delete(identifier)]. *)
Definition deleteVerificationValue (identifier : list N) (s : t) : t :=
  {| verifications := delete identifier (verifications s);
     accounts := accounts s; users := users s; sessions := sessions s |}.

(** Modelled from the spec:
    [findAccountByProviderAccountId(id) → account | none]. *)
Definition findAccount (aid : list N) (s : t) : option Account :=
  accounts s !! aid.

(** Modelled from the spec: [findUserById(id) → user | none]. *)
Definition findUserById (uid : nat) (s : t) : option User :=
  (fun d => {| id := uid; data := d |}) <$> users s !! uid.

(** Modelled from the spec:
    [createUserWithAccount(userFields, accountFields) → user]; the store
    picks an id no user has yet. *)
Definition createOAuthUser
    (d : UserData) (provider aid : list N) (s : t) : User * t :=
  let uid := fresh (dom (users s)) in
  ({| id := uid; data := d |},
   {| verifications := verifications s;
      accounts :=
        <[aid := {| providerId := provider; accountId := aid;
                    userId := uid |}]> (accounts s);
      users := <[uid := d]> (users s);
      sessions := sessions s |}).

(** Modelled from the spec: [createSession(userId) → session]. *)
Definition createSession (uid : nat) (s : t) : Session * t :=
  let sess := {| token := length (sessions s); sessionUserId := uid |} in
  (sess,
   {| verifications := verifications s; accounts := accounts s;
      users := users s; sessions := sessions s ++ [sess] |}).

End Adapter.

(** ** Server plugin *)

Module SiwsOptions.
Record t := {
  domain : list N;
  statement : option (list N);
  nonceTtlSeconds : option PrimFloat.float;
}.
End SiwsOptions.

(** The JSON body of a successful [start]. *)
Module StartResponse.
Record t := {
  nonce : list N;
  domain : list N;
  uri : list N;
}.
End StartResponse.

(** What a [verify] call produces. *)
Inductive Response :=
| NonceMissing             (* new Response("Nonce missing", 400) *)
| NonceInvalidOrExpired    (* new Response("Nonce invalid or expired", 400) *)
| DomainMismatch           (* new Response("Domain mismatch", 400) *)
| InvalidSignature         (* new Response("Invalid signature", 401) *)
| Thrown                   (* an exception escapes the handler *)
| Json (user : nat) (session : Adapter.Session).
                           (* ctx.json({ user, session }), session cookie set *)

Definition status (r : Response) : nat :=
  match r with
  | NonceMissing | NonceInvalidOrExpired | DomainMismatch => 400
  | InvalidSignature => 401
  | Thrown => 500
  | Json _ _ => 200
  end.

Definition isFailure (r : Response) : bool :=
  match r with Json _ _ => false | _ => true end.

Definition buildAccountId (addr : list N) : list N := lit "siws:" ++ addr.

(** The [name] of a new user: ["sol:"], [address.slice(0, 4)], the three
    code units U+00E2 U+20AC U+00A6 that the source file holds between the
    slices, and [address.slice(-4)]. *)
Definition userName (addr : list N) : list N :=
  lit "sol:" ++ slice_to 4 addr ++ [226; 8364; 166]%N ++ slice_last 4 addr.

Section Plugin.

Context {crypto : Crypto}.
Variable options : SiwsOptions.t.

(** The body schema of both endpoints: [address: z.string().min(32)]. *)
Definition addressOk (addr : list N) : bool := (32 <=? length addr)%nat.

(** [new Date(Date.now() + (options.nonceTtlSeconds ?? 300) * 1000)] when
    [Date.now()] is [now]. *)
Definition startExpiresAt (now : Z) : option Z :=
  newDate
    (PrimFloat.add (number_of_Z now)
       (PrimFloat.mul
          (default (number_of_Z 300) (SiwsOptions.nonceTtlSeconds options))
          (number_of_Z 1000))).

(** Handler of [POST /siws/start].  [random] stands for
    [crypto.getRandomValues(new Uint8Array(16))], [now] for [Date.now()],
    [baseURL] for [ctx.context.baseURL]. *)
Definition start (addr : list N) (random : list Byte.byte) (now : Z)
    (baseURL : list N) (s : Adapter.t) : StartResponse.t * Adapter.t :=
  let nonce := bs58_encode random in
  let expiresAt := startExpiresAt now in
  let s := Adapter.createVerificationValue
             (lit "siws:" ++ addr) nonce expiresAt s in
  ({| StartResponse.nonce := nonce;
      StartResponse.domain := SiwsOptions.domain options;
      StartResponse.uri := baseURL |}, s).

(** Step 5: the three decoding calls and the signature check; any of them
    may throw. *)
Definition verifySignature (signature message addr : list N) : option bool :=
  sig ← bs58_decode signature;
  let msg := utf8_encode message in
  pk ← bs58_decode addr;
  ed25519_verifyAsync sig msg pk.

(** Steps 6 and 7 once [userObject] is known. *)
Definition issueSession (userObject : Adapter.User) (s : Adapter.t)
    : Response * Adapter.t :=
  let '(session, s) := Adapter.createSession (Adapter.id userObject) s in
  (Json (Adapter.id userObject) session, s).

(** Handler of [POST /siws/verify].  [now] stands for [new Date()]. *)
Definition verify (addr message signature : list N) (now : Z)
    (s : Adapter.t) : Response * Adapter.t :=
  (* 1) Extract nonce from message *)
  if nonceMissing message then (NonceMissing, s) else
  (* 2) Find verification value *)
  match Adapter.findVerificationValue (lit "siws:" ++ addr) s with
  | None => (NonceInvalidOrExpired, s)
  | Some v =>
    if dateNotAfter (Adapter.expiresAt v) now
    then (NonceInvalidOrExpired, s) else
    (* 3) Delete it to enforce single-use *)
    let s := Adapter.deleteVerificationValue (lit "siws:" ++ addr) s in
    (* 4) Domain binding *)
    let expectedDomain := SiwsOptions.domain options in
    if negb (startsWith message (expectedDomain ++ lit " wants you to sign in"))
    then (DomainMismatch, s) else
    (* 5) Verify ed25519 signature *)
    match verifySignature signature message addr with
    | None => (Thrown, s)
    | Some false => (InvalidSignature, s)
    | Some true =>
      (* 6) Upsert user + create session *)
      match Adapter.findAccount (buildAccountId addr) s with
      | None =>
        let '(user, s) :=
          Adapter.createOAuthUser
            {| Adapter.email := addr; Adapter.emailVerified := true;
               Adapter.name := userName addr |}
            (lit "siws") (buildAccountId addr) s in
        issueSession user s
      | Some existingAccount =>
        match Adapter.findUserById (Adapter.userId existingAccount) s with
        | Some user => issueSession user s
        | None => (Thrown, s)     (* [userObject.id] on [null] *)
        end
      end
    end
  end.

(** The endpoints as [createAuthEndpoint] exposes them: the body is
    checked against its schema before the handler runs, and a body that
    fails the check never reaches it. *)
Definition startEndpoint (addr : list N) (random : list Byte.byte) (now : Z)
    (baseURL : list N) (s : Adapter.t)
    : option StartResponse.t * Adapter.t :=
  if addressOk addr
  then let '(r, s) := start addr random now baseURL s in (Some r, s)
  else (None, s).

Definition verifyEndpoint (addr message signature : list N) (now : Z)
    (s : Adapter.t) : option Response * Adapter.t :=
  if addressOk addr
  then let '(r, s) := verify addr message signature now s in (Some r, s)
  else (None, s).

End Plugin.

(** ** The lines of the canonical message, as the specification lists them *)

(** The text in front of the nonce line: greeting, address, blank, statement,
    blank, URI and version lines. *)
Definition preamble (i : SiwsMessageInput) : list (list N) :=
  [ domain i ++ lit " wants you to sign in with your Solana account:";
    address i;
    [];
    default (lit "Sign in with Solana to the app.") (statement i);
    [];
    lit "URI: " ++ uri i;
    lit "Version: 1" ].

(** The optional lines after [Issued At]: the expiration line when
    [expirationTime] is given (and not the empty string, which JavaScript
    treats like an absent one), then the resources block when the list has
    an element. *)
Definition trailer (i : SiwsMessageInput) : list (list N) :=
  match expirationTime i with
  | Some e => if truthy e then [lit "Expiration Time: " ++ e] else []
  | None => []
  end ++
  match resources i with
  | Some (r :: rs) => lit "Resources:" :: List.map (fun x => lit "- " ++ x) (r :: rs)
  | _ => []
  end.

Definition canonicalLines (i : SiwsMessageInput) : list (list N) :=
  preamble i ++ [lit "Nonce: " ++ nonce i; lit "Issued At: " ++ issuedAt i]
    ++ trailer i.

(** Responses that are produced before the challenge is consumed. *)
Definition returnsBeforeDelete (r : Response) : bool :=
  match r with
  | NonceMissing | NonceInvalidOrExpired => true
  | _ => false
  end.

(** A challenge record is live when the expiry test of [verify] lets it
    pass: strictly before its [expiresAt] instant, or always when its
    [expiresAt] is an Invalid Date. *)
Definition live (now : Z) (v : Adapter.VerificationValue) : bool :=
  negb (dateNotAfter (Adapter.expiresAt v) now).

(** ** Sequences of calls *)

(** One request handled by the plugin, with the values the handler draws
    from its environment. *)
Inductive Call :=
| CallStart (addr : list N) (random : list Byte.byte) (now : Z)
    (baseURL : list N)
| CallVerify (addr message signature : list N) (now : Z).

Definition call {crypto : Crypto} (options : SiwsOptions.t) (c : Call)
    (s : Adapter.t) : Adapter.t :=
  match c with
  | CallStart addr random now baseURL =>
      snd (start options addr random now baseURL s)
  | CallVerify addr message signature now =>
      snd (verify options addr message signature now s)
  end.

Definition run {crypto : Crypto} (options : SiwsOptions.t) (cs : list Call)
    (s : Adapter.t) : Adapter.t :=
  foldl (fun s c => call options c s) s cs.

(** ** Concrete runs *)

(** A stand-in for the cryptographic libraries, used to run the handlers on
    concrete inputs.  Text and bytes are converted code unit by code unit,
    and the "signature" of a message under a key is the key followed by the
    message; it has none of the security of Ed25519 and is only a total
    instance of the interface. *)
Module Demo.

Definition byte_of (c : N) : Byte.byte :=
  default Byte.x00 (Byte.of_N (c mod 256)).

Fixpoint bytes_eqb (a b : list Byte.byte) : bool :=
  match a, b with
  | [], [] => true
  | x :: a', y :: b' => Byte.eqb x y && bytes_eqb a' b'
  | _, _ => false
  end.

Definition crypto : Crypto := {|
  bs58_encode bs := List.map Byte.to_N bs;
  bs58_decode t := Some (List.map byte_of t);
  utf8_encode t := List.map byte_of t;
  ed25519_verifyAsync sig msg pk := Some (bytes_eqb sig (pk ++ msg));
|}.

(** The text that [crypto] accepts as the signature of [message] under
    the key of [addr]. *)
Definition sign (addr message : list N) : list N := addr ++ message.

Definition options : SiwsOptions.t := {|
  SiwsOptions.domain := lit "app.example.com";
  SiwsOptions.statement := None;
  SiwsOptions.nonceTtlSeconds := None;
|}.

Definition alice : list N := lit "7xKXtg2CW87d97TXJSDpbD5jBkheTqA83TZRuJosgAsU".
Definition bob : list N := lit "9WzDXwBbmkg8ZTbNMqUxvQRAyrZzDsGYdLVL9zYtAWWM".
Definition baseURL : list N := lit "https://app.example.com/api/auth".

Definition random1 : list Byte.byte := List.map byte_of (lit "n1").
Definition random2 : list Byte.byte := List.map byte_of (lit "n2").

(** The message a client builds from the answer of [start]. *)
Definition fields (addr nonce : list N) : SiwsMessageInput := {|
  domain := lit "app.example.com";
  address := addr;
  uri := baseURL;
  statement := None;
  nonce := nonce;
  issuedAt := lit "2024-01-01T00:00:00Z";
  expirationTime := None;
  resources := None;
|}.

(** Field sets with all optional parts, and with a statement that itself
    reads like a nonce line. *)
Definition fullFields : SiwsMessageInput := {|
  domain := lit "app.example.com";
  address := alice;
  uri := baseURL;
  statement := Some (lit "Welcome back.");
  nonce := lit "n1";
  issuedAt := lit "2024-01-01T00:00:00Z";
  expirationTime := Some (lit "2024-01-01T00:05:00Z");
  resources := Some [lit "https://a.example"; lit "https://b.example"];
|}.

Definition statementFields : SiwsMessageInput := {|
  domain := lit "app.example.com";
  address := alice;
  uri := baseURL;
  statement := Some (lit "Nonce: other");
  nonce := lit "n1";
  issuedAt := lit "2024-01-01T00:00:00Z";
  expirationTime := None;
  resources := None;
|}.

(** The store after [start] for [alice] at time 0: one record, expiring at
    300000. *)
Definition started : Adapter.t :=
  snd (start (crypto := crypto) options alice random1 0 baseURL Adapter.empty).

Definition message1 : list N := buildSiwsMessage (fields alice (lit "n1")).

Definition signature1 : list N := sign alice message1.

(** The record [started] holds for [alice]. *)
Definition record1 : Adapter.VerificationValue :=
  {| Adapter.value := lit "n1"; Adapter.expiresAt := Some 300000 |}.

(** A second [start] for [alice], at time 500, and the message for its
    nonce. *)
Definition restarted : Adapter.t :=
  snd (start (crypto := crypto) options alice random2 500 baseURL started).

Definition record2 : Adapter.VerificationValue :=
  {| Adapter.value := lit "n2"; Adapter.expiresAt := Some 300500 |}.

Definition message2 : list N := buildSiwsMessage (fields alice (lit "n2")).
Definition signature2 : list N := sign alice message2.


(** A message without a nonce line. *)
Definition greetingOnly : list N :=
  lit "app.example.com wants you to sign in with your Solana account:".

(** A message whose address line names [bob], signed with the key of
    [alice]. *)
Definition bobMessage : list N := buildSiwsMessage (fields bob (lit "n1")).
Definition bobMessageSignature : list N := sign alice bobMessage.

(** An address that shares its first and last four code units with
    [alice]. *)
Definition aliceTwin : list N := lit "7xKXaaaaaaaaaaaaaaaaaaaaaaaaaaaaaaaaaaaagAsU".

(** A field set whose nonce is blank. *)
Definition blankNonceFields : SiwsMessageInput := fields alice (lit "  ").

(** A message whose nonce line carries white space around the value. *)
Definition paddedMessage : list N :=
  lit "app.example.com wants you to sign in" ++ [LF] ++ lit "Nonce:   n1 " ++ [13%N].

(** Options with a lifetime of zero seconds, of half a millisecond, and
    with a lifetime that is not a number. *)
Definition zeroTtlOptions : SiwsOptions.t := {|
  SiwsOptions.domain := lit "app.example.com";
  SiwsOptions.statement := None;
  SiwsOptions.nonceTtlSeconds := Some (number_of_Z 0);
|}.

Definition halfMsOptions : SiwsOptions.t := {|
  SiwsOptions.domain := lit "app.example.com";
  SiwsOptions.statement := None;
  SiwsOptions.nonceTtlSeconds :=
    Some (PrimFloat.div (number_of_Z 1) (number_of_Z 2000));
|}.

Definition nanTtlOptions : SiwsOptions.t := {|
  SiwsOptions.domain := lit "app.example.com";
  SiwsOptions.statement := None;
  SiwsOptions.nonceTtlSeconds := Some PrimFloat.nan;
|}.

(** Two starts for [alice], at times 0 and 500, with a lifetime of zero. *)
Definition restartedZeroTtl : Adapter.t :=
  snd (start (crypto := crypto) zeroTtlOptions alice random2 500 baseURL
         (snd (start (crypto := crypto) zeroTtlOptions alice random1 0 baseURL
                 Adapter.empty))).

(** The handlers with the stand-in libraries and [options]. *)
Abbreviation verify := (verify (crypto := crypto) options).
Abbreviation start := (start (crypto := crypto) options).
Abbreviation aliceId := (lit "siws:" ++ alice).

End Demo.

(** Whether a sequence of calls holds a [start] for an address. *)
Definition startsFor (addr : list N) (cs : list Call) : bool :=
  existsb (fun c => match c with
                    | CallStart a _ _ _ => bool_decide (a = addr)
                    | CallVerify _ _ _ _ => false
                    end) cs.

(** The same requests sent through the endpoints, which check the body
    first. *)
Definition callEndpoint {crypto : Crypto} (options : SiwsOptions.t) (c : Call)
    (s : Adapter.t) : Adapter.t :=
  match c with
  | CallStart addr random now baseURL =>
      snd (startEndpoint options addr random now baseURL s)
  | CallVerify addr message signature now =>
      snd (verifyEndpoint options addr message signature now s)
  end.

Definition runEndpoints {crypto : Crypto} (options : SiwsOptions.t)
    (cs : list Call) (s : Adapter.t) : Adapter.t :=
  foldl (fun s c => callEndpoint options c s) s cs.

(** Every stored account sits under its own account-id, has the provider
    id of the plugin and points to a user that is in the store. *)
Definition accountsSound (s : Adapter.t) : Prop :=
  ∀ k a, Adapter.accounts s !! k = Some a →
         Adapter.accountId a = k
         ∧ Adapter.providerId a = lit "siws"
         ∧ is_Some (Adapter.users s !! Adapter.userId a).

(** The code unit of the space character. *)
Definition SP : N := 32%N.

(** Case analysis along the paths of [verify]. *)
Ltac verify_cases :=
  unfold verify, issueSession, Adapter.createOAuthUser, Adapter.createSession,
    Adapter.findUserById, Adapter.findAccount in *;
  repeat match goal with
    | H : context [if ?b then _ else _] |- _ => destruct b eqn:?
    | H : context [match ?o with Some _ => _ | None => _ end] |- _ =>
        destruct o eqn:?
    | |- context [if ?b then _ else _] => destruct b eqn:?
    | |- context [match ?o with Some _ => _ | None => _ end] =>
        destruct o eqn:?
    end;
  simplify_eq/=.

(** ** String lemmas *)

Section Strings.

Implicit Types (s p : list N) (a b : list (list N)).

Lemma join_cons sep x y a :
  join sep (x :: y :: a) = x ++ sep ++ join sep (y :: a).
Proof. reflexivity. Qed.

Lemma join_app sep a x b :
  a ≠ [] → join sep (a ++ x :: b) = join sep a ++ sep ++ join sep (x :: b).
Proof.
  induction a as [|y a IH]; [done|intros _].
  destruct a as [|z a].
  - reflexivity.
  - change (join sep ((y :: z :: a) ++ x :: b))
      with (y ++ sep ++ join sep ((z :: a) ++ x :: b)).
    rewrite IH by done. rewrite join_cons. by rewrite <- !app_assoc.
Qed.

(** Joining prefixed lines: the separator of the inner join carries the
    prefix of every line but the first. *)
Lemma join_prefixed sep d r rs :
  d ++ join (sep ++ d) (r :: rs)
  = join sep (List.map (fun x => d ++ x) (r :: rs)).
Proof.
  revert r. induction rs as [|r' rs IH]; intros r; [reflexivity|].
  rewrite join_cons. cbn [List.map] in *. rewrite join_cons, <- IH.
  by rewrite <- !app_assoc.
Qed.

Lemma resourcesEntry_lines r rs :
  resourcesEntry (r :: rs)
  = join [LF] (lit "Resources:" :: List.map (fun x => lit "- " ++ x) (r :: rs)).
Proof.
  unfold resourcesEntry. rewrite join_prefixed.
  cbn [List.map]. by rewrite join_cons.
Qed.

(** An array whose last entry is itself a joined block reads the same as
    the array with the block's lines spliced in. *)
Lemma join_nested sep a x b :
  join sep (a ++ [join sep (x :: b)]) = join sep (a ++ x :: b).
Proof.
  destruct a as [|y a]; [reflexivity|].
  rewrite (join_app sep (y :: a) (join sep (x :: b)) []) by done.
  by rewrite (join_app sep (y :: a) x b).
Qed.

Lemma split_nonempty sep s : split sep s ≠ [].
Proof.
  destruct s as [|c s]; simpl; [done|].
  destruct (c =? sep)%N; [done|]. by destruct (split sep s).
Qed.

Lemma split_app sep s1 s2 :
  split sep (s1 ++ sep :: s2) = split sep s1 ++ split sep s2.
Proof.
  induction s1 as [|c s1 IH]; simpl.
  - by rewrite N.eqb_refl.
  - destruct (c =? sep)%N; [by rewrite IH|].
    rewrite IH. destruct (split sep s1) eqn:E; [|done].
    by apply split_nonempty in E.
Qed.

Lemma split_join sep x a :
  split sep (join [sep] (x :: a)) = concat (List.map (split sep) (x :: a)).
Proof.
  revert x. induction a as [|y a IH]; intros x.
  - simpl. by rewrite app_nil_r.
  - rewrite join_cons. change ([sep] ++ ?t) with (sep :: t).
    rewrite split_app, IH. reflexivity.
Qed.

Lemma split_no_sep sep s : sep ∉ s → split sep s = [s].
Proof.
  induction s as [|c s IH]; [done|]; intros Hn.
  apply not_elem_of_cons in Hn as [Hc Hs]. simpl.
  destruct (N.eqb_spec c sep); [congruence|]. by rewrite IH.
Qed.

Lemma startsWith_app s p : startsWith (p ++ s) p = true.
Proof. induction p as [|x p IH]; [done|]. simpl. by rewrite N.eqb_refl. Qed.

Lemma startsWith_app_r s t p :
  startsWith s p = true → startsWith (s ++ t) p = true.
Proof.
  revert s. induction p as [|x p IH]; intros [|c s]; simpl; try done.
  intros [-> H]%andb_true_iff. by rewrite IH.
Qed.

Lemma find_app {A} (f : A → bool) (l1 l2 : list A) :
  List.find f (l1 ++ l2)
  = match List.find f l1 with Some x => Some x | None => List.find f l2 end.
Proof.
  induction l1 as [|x l1 IH]; [done|]. simpl. by destruct (f x).
Qed.

End Strings.

(** ** The message builder *)

Lemma buildSiwsMessage_lines i :
  buildSiwsMessage i = join [LF] (canonicalLines i).
Proof.
  unfold buildSiwsMessage, canonicalLines, trailer, preamble.
  destruct (expirationTime i) as [e|]; [destruct (truthy e)|];
    destruct (resources i) as [[|r rs]|]; try reflexivity.
  all: rewrite resourcesEntry_lines.
  all: match goal with
       | |- join _ (?a ++ [join _ (?x :: ?b)]) = _ =>
           rewrite (join_nested [LF] a x b)
       end; reflexivity.
Qed.

(** ** Nonce extraction from a built message *)

Lemma nonceLine_build i :
  nonceLine (join [LF] (preamble i)) = None →
  LF ∉ nonce i →
  nonceLine (buildSiwsMessage i) = Some (lit "Nonce: " ++ nonce i).
Proof.
  intros Hpre Hlf. rewrite buildSiwsMessage_lines.
  unfold canonicalLines, nonceLine in *.
  change ([?x; ?y] ++ ?t) with (x :: y :: t).
  rewrite join_app by done. change ([LF] ++ ?t) with (LF :: t).
  rewrite split_app, find_app, Hpre.
  rewrite join_cons. change ([LF] ++ ?t) with (LF :: t).
  rewrite split_app, find_app, split_no_sep.
  - cbn [List.find]. by rewrite startsWith_app.
  - rewrite elem_of_app. intros [H|H]; [|done].
    revert H. apply (bool_decide_unpack (LF ∉ lit "Nonce: ")). by vm_compute.
Qed.

Lemma nonceFromMsg_build i :
  nonceLine (join [LF] (preamble i)) = None →
  LF ∉ nonce i →
  trim (nonce i) = nonce i →
  nonceFromMsg (buildSiwsMessage i) = Some (nonce i).
Proof.
  intros Hpre Hlf Htrim. unfold nonceFromMsg.
  rewrite nonceLine_build by done. cbn [fmap option_fmap option_map].
  unfold slice_from. rewrite drop_app_length. by rewrite Htrim.
Qed.

Lemma startsWith_build i :
  startsWith (buildSiwsMessage i) (domain i ++ lit " wants you to sign in") = true.
Proof.
  rewrite buildSiwsMessage_lines. unfold canonicalLines, preamble.
  cbn [app]. rewrite join_cons.
  change (lit " wants you to sign in with your Solana account:")
    with (lit " wants you to sign in" ++ lit " with your Solana account:").
  rewrite <- !app_assoc.
  rewrite (app_assoc (domain i) (lit " wants you to sign in")).
  apply startsWith_app.
Qed.

(** ** The verify handler *)


Section VerifyFacts.

Context {crypto : Crypto}.
Variable options : SiwsOptions.t.

Implicit Types (addr message signature : list N) (s : Adapter.t).

Lemma live_true_iff now v :
  live now v = true ↔ dateNotAfter (Adapter.expiresAt v) now = false.
Proof. apply negb_true_iff. Qed.

Lemma live_false_iff now v :
  live now v = false ↔ dateNotAfter (Adapter.expiresAt v) now = true.
Proof. apply negb_false_iff. Qed.

Lemma verify_store addr message signature now s r s' :
  verify options addr message signature now s = (r, s') →
  if returnsBeforeDelete r then s' = s
  else Adapter.verifications s'
         = delete (lit "siws:" ++ addr) (Adapter.verifications s)
       ∧ ∃ v, Adapter.findVerificationValue (lit "siws:" ++ addr) s = Some v
              ∧ live now v = true.
Proof.
  intros H. verify_cases; try done;
    (split; [done|eexists; split; [done|by apply live_true_iff]]).
Qed.

(** Apart from the consumed challenge, a failing call changes nothing. *)
Lemma verify_failure_store addr message signature now s r s' :
  verify options addr message signature now s = (r, s') →
  isFailure r = true →
  s' = if returnsBeforeDelete r then s
       else Adapter.deleteVerificationValue (lit "siws:" ++ addr) s.
Proof. intros H Hf. verify_cases; done. Qed.

Lemma verify_nonce_present addr message signature now s r s' :
  verify options addr message signature now s = (r, s') →
  r ≠ NonceMissing → nonceMissing message = false.
Proof. intros H Hr. verify_cases; done. Qed.

Lemma verify_expired addr message signature now s v :
  nonceMissing message = false →
  Adapter.findVerificationValue (lit "siws:" ++ addr) s = Some v →
  live now v = false →
  verify options addr message signature now s = (NonceInvalidOrExpired, s).
Proof.
  intros Hn Hf He%live_false_iff. unfold verify. by rewrite Hn, Hf, He.
Qed.

Lemma verify_absent addr message signature now s :
  nonceMissing message = false →
  Adapter.findVerificationValue (lit "siws:" ++ addr) s = None →
  verify options addr message signature now s = (NonceInvalidOrExpired, s).
Proof. intros Hn Hf. unfold verify. by rewrite Hn, Hf. Qed.

Lemma verify_domain_mismatch addr message signature now s v :
  nonceMissing message = false →
  Adapter.findVerificationValue (lit "siws:" ++ addr) s = Some v →
  live now v = true →
  startsWith message
    (SiwsOptions.domain options ++ lit " wants you to sign in") = false →
  verify options addr message signature now s
  = (DomainMismatch, Adapter.deleteVerificationValue (lit "siws:" ++ addr) s).
Proof.
  intros Hn Hf He%live_true_iff Hd. unfold verify. by rewrite Hn, Hf, He, Hd.
Qed.

(** The account binding and user a successful call ends with. *)
Lemma verify_success addr message signature now s v :
  nonceMissing message = false →
  Adapter.findVerificationValue (lit "siws:" ++ addr) s = Some v →
  live now v = true →
  startsWith message
    (SiwsOptions.domain options ++ lit " wants you to sign in") = true →
  verifySignature signature message addr = Some true →
  (∀ a, Adapter.findAccount (buildAccountId addr) s = Some a →
        is_Some (Adapter.users s !! Adapter.userId a)) →
  ∃ u sess s',
    verify options addr message signature now s = (Json u sess, s')
    ∧ Adapter.findVerificationValue (lit "siws:" ++ addr) s' = None
    ∧ (∃ a, Adapter.findAccount (buildAccountId addr) s' = Some a
            ∧ Adapter.userId a = u)
    ∧ is_Some (Adapter.users s' !! u)
    ∧ ∀ k, k ≠ buildAccountId addr →
           Adapter.accounts s' !! k = Adapter.accounts s !! k.
Proof.
  intros Hn Hf He%live_true_iff Hd Hs Hu. unfold verify.
  rewrite Hn, Hf, He, Hd, Hs. cbn [negb].
  unfold issueSession, Adapter.findUserById, Adapter.createOAuthUser,
    Adapter.createSession, Adapter.findAccount,
    Adapter.deleteVerificationValue, Adapter.findVerificationValue in *.
  cbn [Adapter.users Adapter.accounts Adapter.verifications Adapter.id].
  destruct (Adapter.accounts s !! buildAccountId addr) as [a|] eqn:Ha.
  - destruct (Hu a eq_refl) as [d Hd']. rewrite Hd'.
    cbn [fmap option_fmap option_map Adapter.id].
    do 3 eexists. split; [done|].
    cbn [Adapter.users Adapter.accounts Adapter.verifications].
    rewrite lookup_delete_eq. repeat split; eauto.
  - do 3 eexists. split; [done|].
    cbn [Adapter.users Adapter.accounts Adapter.verifications].
    rewrite lookup_delete_eq, !lookup_insert_eq. repeat split; eauto.
    intros k Hk. by rewrite lookup_insert_ne.
Qed.

(** An account binding, once in the store, survives every call. *)
Lemma verify_account_stable addr message signature now s k a :
  Adapter.accounts s !! k = Some a →
  Adapter.accounts (snd (verify options addr message signature now s)) !! k
  = Some a.
Proof.
  intros Hk. destruct (verify _ _ _ _ _ _) as [r s'] eqn:E. cbn.
  verify_cases; try done.
  destruct (decide (buildAccountId addr = k)) as [<-|Hne]; [congruence|].
  by rewrite lookup_insert_ne.
Qed.

Lemma call_account_stable c s k a :
  Adapter.accounts s !! k = Some a →
  Adapter.accounts (call options c s) !! k = Some a.
Proof.
  destruct c; cbn [call]; [done|]. apply verify_account_stable.
Qed.

Lemma run_account_stable cs s k a :
  Adapter.accounts s !! k = Some a →
  Adapter.accounts (run options cs s) !! k = Some a.
Proof.
  revert s. induction cs as [|c cs IH]; intros s Hk; [done|].
  cbn. apply IH. by apply call_account_stable.
Qed.

(** What a successful call tells about the account of its address. *)
Lemma verify_Json_account addr message signature now s u sess s' :
  verify options addr message signature now s = (Json u sess, s') →
  (∃ a, Adapter.accounts s' !! buildAccountId addr = Some a
        ∧ Adapter.userId a = u)
  ∧ match Adapter.accounts s !! buildAccountId addr with
    | Some a => Adapter.userId a = u ∧ Adapter.users s' = Adapter.users s
    | None => Adapter.users s !! u = None
              ∧ Adapter.users s' = <[u := {| Adapter.email := addr;
                                           Adapter.emailVerified := true;
                                           Adapter.name := userName addr |}]>
                                     (Adapter.users s)
    end.
Proof.
  intros H. verify_cases.
  - match goal with
    | E : _ <$> _ = Some _ |- _ => apply fmap_Some in E as (d & ? & ->)
    end.
    cbn. eauto.
  - rewrite lookup_insert_eq. split; [eauto|].
    split; [apply not_elem_of_dom, is_fresh|done].
Qed.

(** The account a successful call writes when it found none. *)
Lemma verify_Json_new_account addr message signature now s u sess s' :
  verify options addr message signature now s = (Json u sess, s') →
  Adapter.accounts s !! (lit "siws:" ++ addr) = None →
  Adapter.accounts s'
  = <[lit "siws:" ++ addr :=
        {| Adapter.providerId := lit "siws";
           Adapter.accountId := lit "siws:" ++ addr;
           Adapter.userId := u |}]> (Adapter.accounts s).
Proof.
  intros H Hnone. unfold verify, Adapter.findAccount in H.
  unfold buildAccountId in H.
  cbn [Adapter.deleteVerificationValue Adapter.accounts] in H.
  rewrite Hnone in H. verify_cases. done.
Qed.

(** Once the lookup has found a live record, every path deletes it. *)
Lemma verify_consumes addr message signature now s v :
  nonceMissing message = false →
  Adapter.findVerificationValue (lit "siws:" ++ addr) s = Some v →
  live now v = true →
  returnsBeforeDelete
    (fst (verify options addr message signature now s)) = false
  ∧ Adapter.findVerificationValue (lit "siws:" ++ addr)
      (snd (verify options addr message signature now s)) = None.
Proof.
  intros Hn Hf He.
  destruct (verify options addr message signature now s) as [r s'] eqn:E.
  cbn [fst snd].
  assert (Hr : returnsBeforeDelete r = false).
  { apply live_true_iff in He. clear -E Hn Hf He.
    verify_cases; try done; congruence. }
  split; [done|]. apply verify_store in E. rewrite Hr in E.
  destruct E as [Hv _]. unfold Adapter.findVerificationValue.
  rewrite Hv. apply lookup_delete_eq.
Qed.

(** The endpoint runs the handler on a body that passes the schema, and
    answers a body that fails it without touching the store. *)
Lemma verifyEndpoint_handler addr message signature now s :
  verifyEndpoint options addr message signature now s
  = if addressOk addr
    then (Some (fst (verify options addr message signature now s)),
          snd (verify options addr message signature now s))
    else (None, s).
Proof.
  unfold verifyEndpoint. destruct (addressOk addr); [|done].
  by destruct (verify options addr message signature now s).
Qed.

Lemma startEndpoint_handler addr random now baseURL s :
  startEndpoint options addr random now baseURL s
  = if addressOk addr
    then (Some (fst (start options addr random now baseURL s)),
          snd (start options addr random now baseURL s))
    else (None, s).
Proof. unfold startEndpoint. by destruct (addressOk addr). Qed.

Lemma delete_createVerificationValue k n e s :
  Adapter.deleteVerificationValue k (Adapter.createVerificationValue k n e s)
  = Adapter.deleteVerificationValue k s.
Proof.
  unfold Adapter.deleteVerificationValue, Adapter.createVerificationValue.
  cbn. by rewrite delete_insert_eq.
Qed.

End VerifyFacts.

(** ** Properties of the message codec *)

(** The builder on a field set with every optional part. *)
Example buildSiwsMessage_full :
  buildSiwsMessage Demo.fullFields
  = lit "app.example.com wants you to sign in with your Solana account:
7xKXtg2CW87d97TXJSDpbD5jBkheTqA83TZRuJosgAsU

Welcome back.

URI: https://app.example.com/api/auth
Version: 1
Nonce: n1
Issued At: 2024-01-01T00:00:00Z
Expiration Time: 2024-01-01T00:05:00Z
Resources:
- https://a.example
- https://b.example".
Proof. reflexivity. Qed.

(** C8 — message format and determinism.  [buildSiwsMessage] is a function
    of its fields alone, and its output is the line-feed join of, in order:
    the greeting line, the address line, a blank line, the statement (the
    fixed sentence when absent), a blank line, the [URI:], [Version: 1],
    [Nonce:] and [Issued At:] lines, then the [Expiration Time:] line only
    when [expirationTime] is given (and is not the empty text), then
    [Resources:] and one dash-prefixed line per resource only when the list
    has an element. *)
Theorem buildSiwsMessage_format_deterministic :
  (∀ i, buildSiwsMessage i = join [LF] (canonicalLines i))
  ∧ (∀ i j, i = j → buildSiwsMessage i = buildSiwsMessage j).
Proof.
  split; [apply buildSiwsMessage_lines|]. by intros i j ->.
Qed.

Lemma buildSiwsMessage_format_deterministic_witness :
  buildSiwsMessage Demo.fullFields = join [LF] (canonicalLines Demo.fullFields)
  ∧ buildSiwsMessage Demo.fullFields = buildSiwsMessage Demo.fullFields.
Proof.
  destruct buildSiwsMessage_format_deterministic as [Hfmt Hdet].
  split; [apply Hfmt | apply Hdet; reflexivity].
Defined.

(** C2 as stated fails: a statement that reads like a nonce line comes
    first in the message, and the scan returns its value instead of the
    nonce field. *)
Lemma nonce_round_trip_statement_counterexample :
  nonceFromMsg (buildSiwsMessage Demo.statementFields) = Some (lit "other")
  ∧ nonceFromMsg (buildSiwsMessage Demo.statementFields)
    ≠ Some (nonce Demo.statementFields).
Proof. split; [reflexivity|]. by vm_compute. Qed.

(** C2, amended — round trip.  When no line of the text in front of the
    nonce line (greeting, address, statement, URI, version) starts with
    ["Nonce: "], and the nonce holds no line feed and no leading or trailing
    white space, the nonce scanned out of [buildSiwsMessage f] is exactly
    [f.nonce]. *)
Theorem nonce_round_trip i :
  nonceLine (join [LF] (preamble i)) = None →
  LF ∉ nonce i →
  trim (nonce i) = nonce i →
  nonceFromMsg (buildSiwsMessage i) = Some (nonce i).
Proof. apply nonceFromMsg_build. Qed.

Lemma nonce_round_trip_witness :
  nonceFromMsg (buildSiwsMessage Demo.fullFields) = Some (lit "n1").
Proof.
  apply (nonce_round_trip Demo.fullFields).
  - reflexivity.
  - apply (bool_decide_unpack (LF ∉ lit "n1")). by vm_compute.
  - reflexivity.
Defined.

(** ** Properties of the verifier *)

Section Verifier.

Context {crypto : Crypto}.
Variable options : SiwsOptions.t.

Implicit Types (addr message signature : list N) (s : Adapter.t).

(** C1 — single use.  After a verify call that succeeds end to end, a
    second call with the same address, message and signature, at any
    time, answers "Nonce invalid or expired" (400): the first call deleted
    the record stored under ["siws:" + address]. *)
Theorem verify_single_use addr message signature now now' s :
  isFailure (fst (verify options addr message signature now s)) = false →
  Adapter.findVerificationValue (lit "siws:" ++ addr)
    (snd (verify options addr message signature now s)) = None
  ∧ verify options addr message signature now'
      (snd (verify options addr message signature now s))
    = (NonceInvalidOrExpired,
       snd (verify options addr message signature now s))
  ∧ status
      (fst (verify options addr message signature now'
              (snd (verify options addr message signature now s)))) = 400%nat.
Proof.
  destruct (verify options addr message signature now s) as [r s'] eqn:E.
  cbn [fst snd]. intros Hok.
  assert (Hgone : Adapter.findVerificationValue (lit "siws:" ++ addr) s' = None).
  { apply verify_store in E. destruct r; try discriminate Hok.
    cbn in E. destruct E as [Hv _]. unfold Adapter.findVerificationValue.
    rewrite Hv. apply lookup_delete_eq. }
  assert (Hsecond : verify options addr message signature now' s'
                    = (NonceInvalidOrExpired, s')).
  { apply verify_absent; [|done].
    eapply verify_nonce_present; [exact E|]. by destruct r. }
  split; [done|]. split; [done|]. by rewrite Hsecond.
Qed.

(** C3, amended — expiry.  For a message that carries a nonce, a stored
    record whose [expiresAt] is at or before the current time makes verify
    answer "Nonce invalid or expired" (400), whatever the signature; and a
    record whose [expiresAt] is still ahead never gives that answer.  So a
    record is invalid exactly at its [expiresAt] instant and after. *)
Theorem verify_expiry addr message now s v e :
  nonceMissing message = false →
  Adapter.findVerificationValue (lit "siws:" ++ addr) s = Some v →
  Adapter.expiresAt v = Some e →
  ∀ signature,
    (fst (verify options addr message signature now s) = NonceInvalidOrExpired
     ↔ e ≤ now)
    ∧ (e ≤ now →
       status (fst (verify options addr message signature now s)) = 400%nat).
Proof.
  intros Hn Hf He signature.
  assert (Hle : e ≤ now →
                fst (verify options addr message signature now s)
                = NonceInvalidOrExpired).
  { intros Hle. rewrite (verify_expired options addr message signature now s v);
      [done..|]. apply live_false_iff. rewrite He. by apply Z.leb_le. }
  split; [split; [|done]|by intros ->%Hle].
  intros Hr. destruct (Z.le_gt_cases e now) as [|Hgt]; [done|].
  destruct (verify_consumes options addr message signature now s v Hn Hf)
    as [Hpast _].
  { apply live_true_iff. rewrite He. by apply Z.leb_gt. }
  rewrite Hr in Hpast. discriminate Hpast.
Qed.

(** C5 — frame and consumption.  A failing verify call leaves the store
    as it was when it stops at nonce extraction or at the lookup, and
    otherwise changes nothing but the deletion of the record under
    ["siws:" + address]; and once the lookup has found a live record, that
    record is gone from the store whatever the call answers. *)
Theorem verify_frame addr message signature now s :
  (isFailure (fst (verify options addr message signature now s)) = true →
   if returnsBeforeDelete (fst (verify options addr message signature now s))
   then snd (verify options addr message signature now s) = s
   else snd (verify options addr message signature now s)
        = Adapter.deleteVerificationValue (lit "siws:" ++ addr) s)
  ∧ (∀ v,
       nonceMissing message = false →
       Adapter.findVerificationValue (lit "siws:" ++ addr) s = Some v →
       live now v = true →
       returnsBeforeDelete
         (fst (verify options addr message signature now s)) = false
       ∧ Adapter.findVerificationValue (lit "siws:" ++ addr)
           (snd (verify options addr message signature now s)) = None).
Proof.
  split; [|intros v; apply verify_consumes].
  destruct (verify options addr message signature now s) as [r s'] eqn:E.
  cbn [fst snd]. intros Hfail. eapply verify_failure_store in E; [|done].
  by destruct (returnsBeforeDelete r).
Qed.

(** C6 — nonce cross-check gap.  The answer of verify does not depend on
    the nonce value the store holds for the address; and when the nonce
    in the message differs from the stored one, a live record still takes
    the call past the lookup and the consumption, and the call succeeds
    end to end once the domain and signature checks pass. *)
Theorem verify_nonce_not_cross_checked addr message signature now s :
  (∀ e n1 n2,
     fst (verify options addr message signature now
            (Adapter.createVerificationValue (lit "siws:" ++ addr) n1 e s))
     = fst (verify options addr message signature now
              (Adapter.createVerificationValue (lit "siws:" ++ addr) n2 e s)))
  ∧ (∀ v n,
       nonceFromMsg message = Some n →
       truthy n = true →
       Adapter.findVerificationValue (lit "siws:" ++ addr) s = Some v →
       Adapter.value v ≠ n →
       live now v = true →
       returnsBeforeDelete
         (fst (verify options addr message signature now s)) = false
       ∧ Adapter.findVerificationValue (lit "siws:" ++ addr)
           (snd (verify options addr message signature now s)) = None
       ∧ (startsWith message
            (SiwsOptions.domain options ++ lit " wants you to sign in") = true →
          verifySignature signature message addr = Some true →
          (∀ a, Adapter.findAccount (buildAccountId addr) s = Some a →
                is_Some (Adapter.users s !! Adapter.userId a)) →
          ∃ u sess,
            fst (verify options addr message signature now s) = Json u sess)).
Proof.
  split.
  - intros e n1 n2. unfold verify. destruct (nonceMissing message); [done|].
    unfold Adapter.findVerificationValue.
    cbn [Adapter.createVerificationValue Adapter.verifications].
    rewrite !lookup_insert_eq. cbn [Adapter.expiresAt].
    destruct (dateNotAfter e now); [done|].
    by rewrite !delete_createVerificationValue.
  - intros v n Hn Ht Hf Hne He.
    assert (Hm : nonceMissing message = false).
    { unfold nonceMissing. rewrite Hn. by rewrite Ht. }
    destruct (verify_consumes options addr message signature now s v Hm Hf He)
      as [Hr Hg]. repeat split; [done..|].
    intros Hd Hs Hu.
    destruct (verify_success options addr message signature now s v
                Hm Hf He Hd Hs Hu) as (u & sess & s' & -> & _). eauto.
Qed.

(** C9 — idempotent user provisioning.  Take a successful verify call for
    an address, any sequence of further start and verify calls, and then
    another successful verify call for the same address.  Both resolve to
    the same user id; the account stored under the key ["siws:" + address]
    is bound to that user; the later call adds no user; and when the first
    call found no account under that key, the user it returns is a new one
    and the account it stores there has provider ["siws"] and account-id
    ["siws:" + address]. *)
Theorem user_provisioning_idempotent
    addr message1 signature1 now1 message2 signature2 now2 between s :
  isFailure (fst (verify options addr message1 signature1 now1 s)) = false →
  isFailure
    (fst (verify options addr message2 signature2 now2
            (run options between
               (snd (verify options addr message1 signature1 now1 s)))))
    = false →
  ∃ u session1 session2,
    fst (verify options addr message1 signature1 now1 s) = Json u session1
    ∧ fst (verify options addr message2 signature2 now2
             (run options between
                (snd (verify options addr message1 signature1 now1 s))))
      = Json u session2
    ∧ (∃ a, Adapter.accounts
              (snd (verify options addr message1 signature1 now1 s))
            !! (lit "siws:" ++ addr) = Some a
            ∧ Adapter.userId a = u)
    ∧ Adapter.users
        (snd (verify options addr message2 signature2 now2
                (run options between
                   (snd (verify options addr message1 signature1 now1 s)))))
      = Adapter.users
          (run options between
             (snd (verify options addr message1 signature1 now1 s)))
    ∧ (Adapter.accounts s !! (lit "siws:" ++ addr) = None →
       Adapter.users s !! u = None
       ∧ is_Some (Adapter.users
                    (snd (verify options addr message1 signature1 now1 s))
                  !! u)
       ∧ Adapter.accounts
           (snd (verify options addr message1 signature1 now1 s))
         !! (lit "siws:" ++ addr)
         = Some {| Adapter.providerId := lit "siws";
                   Adapter.accountId := lit "siws:" ++ addr;
                   Adapter.userId := u |}).
Proof.
  destruct (verify options addr message1 signature1 now1 s)
    as [r1 s1] eqn:E1. cbn [fst snd].
  set (s2 := run options between s1).
  destruct (verify options addr message2 signature2 now2 s2)
    as [r2 s3] eqn:E2. cbn [fst snd].
  intros H1 H2.
  destruct r1 as [| | | | |u1 session1]; try discriminate H1.
  destruct r2 as [| | | | |u2 session2]; try discriminate H2.
  pose proof (verify_Json_new_account _ _ _ _ _ _ _ _ _ E1) as Hnew.
  apply verify_Json_account in E1 as [(a & Ha & Hau) Hfirst].
  apply verify_Json_account in E2 as [_ Hsecond].
  pose proof (run_account_stable options between s1 _ _ Ha) as Ha2.
  fold s2 in Ha2. rewrite Ha2 in Hsecond. destruct Hsecond as [Hu Husers].
  unfold buildAccountId in *.
  exists u1, session1, session2.
  split; [done|]. split; [congruence|]. split; [eauto|]. split; [done|].
  intros Hnone. rewrite Hnone in Hfirst. destruct Hfirst as [Hfresh ->].
  split; [done|]. split; [rewrite lookup_insert_eq; eauto|].
  rewrite Hnew by done. apply lookup_insert_eq.
Qed.

(** C10 — the address line of the message is never checked.  Let the
    message be built for an address other than the one submitted.  With a
    live record for the submitted address, the configured domain in the
    greeting and a signature that verifies under the submitted address's
    key, verify succeeds: the user it returns is the one bound to the
    account ["siws:" + submitted address], and the account of the address
    the message names is left as it was. *)
Theorem verify_ignores_message_address addr i signature now s v :
  address i ≠ addr →
  domain i = SiwsOptions.domain options →
  nonceLine (join [LF] (preamble i)) = None →
  LF ∉ nonce i →
  trim (nonce i) = nonce i →
  truthy (nonce i) = true →
  Adapter.findVerificationValue (lit "siws:" ++ addr) s = Some v →
  live now v = true →
  verifySignature signature (buildSiwsMessage i) addr = Some true →
  (∀ a, Adapter.findAccount (buildAccountId addr) s = Some a →
        is_Some (Adapter.users s !! Adapter.userId a)) →
  ∃ u session,
    fst (verify options addr (buildSiwsMessage i) signature now s)
    = Json u session
    ∧ (∃ a, Adapter.findAccount (buildAccountId addr)
              (snd (verify options addr (buildSiwsMessage i) signature now s))
            = Some a
            ∧ Adapter.userId a = u)
    ∧ Adapter.findAccount (buildAccountId (address i))
        (snd (verify options addr (buildSiwsMessage i) signature now s))
      = Adapter.findAccount (buildAccountId (address i)) s.
Proof.
  intros Hne Hdom Hpre Hlf Htrim Htruthy Hf He Hs Hu.
  assert (Hm : nonceMissing (buildSiwsMessage i) = false).
  { unfold nonceMissing. rewrite nonceFromMsg_build by done.
    by rewrite Htruthy. }
  assert (Hd : startsWith (buildSiwsMessage i)
                 (SiwsOptions.domain options ++ lit " wants you to sign in")
               = true).
  { rewrite <- Hdom. apply startsWith_build. }
  destruct (verify_success options addr (buildSiwsMessage i) signature now s v
              Hm Hf He Hd Hs Hu)
    as (u & session & s' & -> & _ & Ha & _ & Hframe).
  exists u, session. cbn [fst snd]. repeat split; [done|].
  apply Hframe. unfold buildAccountId. intros Heq.
  by apply app_inv_head in Heq.
Qed.

(** C7, amended — upsert on repeated start.  After a second start for an
    address, exactly one record is stored under ["siws:" + address]; it
    carries the nonce returned by the second call and the expiry date that
    call computed, and it is live at the time of that call exactly when
    this date is later than that time or is invalid; when the two nonces
    differ, no record under the identifier carries the first call's nonce
    any more; records under other identifiers are as they were. *)
Theorem start_twice_upsert addr random1 now1 base1 random2 now2 base2 s :
  let s1 := snd (start options addr random1 now1 base1 s) in
  let out := start options addr random2 now2 base2 s1 in
  let record :=
    {| Adapter.value := StartResponse.nonce (fst out);
       Adapter.expiresAt := startExpiresAt options now2 |} in
  StartResponse.nonce (fst out) = bs58_encode random2
  ∧ Adapter.findVerificationValue (lit "siws:" ++ addr) (snd out) = Some record
  ∧ filter (λ kv, kv.1 = lit "siws:" ++ addr) (Adapter.verifications (snd out))
    = {[ lit "siws:" ++ addr := record ]}
  ∧ (live now2 record = true
     ↔ ∀ e, startExpiresAt options now2 = Some e → now2 < e)
  ∧ (bs58_encode random1 ≠ bs58_encode random2 →
     ∀ w, Adapter.findVerificationValue (lit "siws:" ++ addr) (snd out) = Some w →
          Adapter.value w ≠ bs58_encode random1)
  ∧ (∀ k, k ≠ lit "siws:" ++ addr →
          Adapter.findVerificationValue k (snd out)
          = Adapter.findVerificationValue k s).
Proof.
  intros s1 out record. subst s1 out record.
  unfold start, Adapter.findVerificationValue, live.
  cbn [fst snd StartResponse.nonce Adapter.createVerificationValue
       Adapter.verifications Adapter.expiresAt Adapter.value].
  rewrite insert_insert_eq, lookup_insert_eq.
  split; [done|]. split; [done|]. split; [|split; [|split]].
  - apply map_eq. intros k. apply option_eq. intros w.
    rewrite map_lookup_filter_Some, lookup_insert_Some, lookup_singleton_Some.
    cbn [fst]. split.
    + intros [[Hnew|[Hold _]] Hk]; [done|congruence].
    + intros [<- <-]. auto.
  - rewrite negb_true_iff. destruct (startExpiresAt options now2) as [e|];
      cbn [dateNotAfter].
    + rewrite Z.leb_gt. split; [by intros ? ? [= <-]|eauto].
    + split; [by intros|done].
  - intros Hn w [= <-]. cbn. congruence.
  - intros k Hk. by rewrite lookup_insert_ne.
Qed.

End Verifier.


(** ** The properties on concrete runs *)

Lemma verify_single_use_witness :
  isFailure
    (fst (Demo.verify Demo.alice Demo.message1 Demo.signature1 1000 Demo.started))
  = false
  ∧ Demo.verify Demo.alice Demo.message1 Demo.signature1 2000
      (snd (Demo.verify Demo.alice Demo.message1 Demo.signature1 1000 Demo.started))
    = (NonceInvalidOrExpired,
       snd (Demo.verify Demo.alice Demo.message1 Demo.signature1 1000 Demo.started)).
Proof.
  split; [reflexivity|].
  apply (verify_single_use (crypto := Demo.crypto) Demo.options
           Demo.alice Demo.message1 Demo.signature1 1000 2000 Demo.started).
  reflexivity.
Defined.

(** C3 as stated fails: with an expired record in the store, a message
    without a nonce line is answered "Nonce missing". *)
Lemma verify_expiry_counterexample :
  addressOk Demo.alice = true
  ∧ Adapter.findVerificationValue Demo.aliceId Demo.started = Some Demo.record1
  ∧ Adapter.expiresAt Demo.record1 = Some 300000
  ∧ 300000 ≤ 400000
  ∧ Demo.verify Demo.alice Demo.greetingOnly Demo.signature1 400000 Demo.started
    = (NonceMissing, Demo.started)
  ∧ NonceMissing ≠ NonceInvalidOrExpired.
Proof. repeat split; try reflexivity; [by vm_compute | discriminate]. Qed.

Lemma verify_expiry_witness :
  fst (Demo.verify Demo.alice Demo.message1 Demo.signature1 300000 Demo.started)
  = NonceInvalidOrExpired
  ∧ fst (Demo.verify Demo.alice Demo.message1 Demo.signature1 299999 Demo.started)
    ≠ NonceInvalidOrExpired.
Proof.
  split.
  - apply (verify_expiry (crypto := Demo.crypto) Demo.options Demo.alice
             Demo.message1 300000 Demo.started Demo.record1 300000
             eq_refl eq_refl eq_refl Demo.signature1).
    lia.
  - intros H.
    apply (verify_expiry (crypto := Demo.crypto) Demo.options Demo.alice
             Demo.message1 299999 Demo.started Demo.record1 300000
             eq_refl eq_refl eq_refl Demo.signature1) in H.
    lia.
Defined.



Lemma verify_frame_witness :
  fst (Demo.verify Demo.alice Demo.message1 (Demo.sign Demo.bob Demo.message1)
         1000 Demo.started) = InvalidSignature
  ∧ snd (Demo.verify Demo.alice Demo.message1 (Demo.sign Demo.bob Demo.message1)
           1000 Demo.started)
    = Adapter.deleteVerificationValue Demo.aliceId Demo.started.
Proof.
  split; [reflexivity|].
  apply (proj1 (verify_frame (crypto := Demo.crypto) Demo.options Demo.alice
                  Demo.message1 (Demo.sign Demo.bob Demo.message1)
                  1000 Demo.started)).
  reflexivity.
Defined.

Lemma verify_nonce_not_cross_checked_witness :
  nonceFromMsg Demo.message1 = Some (lit "n1")
  ∧ Adapter.findVerificationValue Demo.aliceId Demo.restarted = Some Demo.record2
  ∧ ∃ u session,
      fst (Demo.verify Demo.alice Demo.message1 Demo.signature1 1000 Demo.restarted)
      = Json u session.
Proof.
  split; [reflexivity|]. split; [reflexivity|].
  apply (proj2 (verify_nonce_not_cross_checked (crypto := Demo.crypto)
                  Demo.options Demo.alice Demo.message1 Demo.signature1
                  1000 Demo.restarted) Demo.record2 (lit "n1")).
  - reflexivity.
  - reflexivity.
  - reflexivity.
  - simpl. apply (bool_decide_unpack (lit "n2" ≠ lit "n1")). by vm_compute.
  - reflexivity.
  - reflexivity.
  - reflexivity.
  - intros a Ha. vm_compute in Ha. discriminate Ha.
Defined.

(** C7 as stated fails: with [nonceTtlSeconds: 0] the record of the second
    start expires at the very time of the call, so it is not live and a
    verify call at that time is answered "Nonce invalid or expired". *)
Lemma start_twice_upsert_counterexample :
  Adapter.findVerificationValue Demo.aliceId Demo.restartedZeroTtl
  = Some {| Adapter.value := lit "n2"; Adapter.expiresAt := Some 500 |}
  ∧ live 500 {| Adapter.value := lit "n2"; Adapter.expiresAt := Some 500 |}
    = false
  ∧ fst (verify (crypto := Demo.crypto) Demo.zeroTtlOptions Demo.alice
           Demo.message2 Demo.signature2 500 Demo.restartedZeroTtl)
    = NonceInvalidOrExpired.
Proof. repeat split; reflexivity. Qed.

Lemma start_twice_upsert_witness :
  Adapter.findVerificationValue Demo.aliceId
    (snd (Demo.start Demo.alice Demo.random2 500 Demo.baseURL
            (snd (Demo.start Demo.alice Demo.random1 0 Demo.baseURL Adapter.empty))))
  = Some Demo.record2
  ∧ live 500 Demo.record2 = true.
Proof.
  destruct (start_twice_upsert (crypto := Demo.crypto) Demo.options Demo.alice
              Demo.random1 0 Demo.baseURL Demo.random2 500 Demo.baseURL
              Adapter.empty)
    as (_ & Hfind & _ & Hlive & _).
  split; [exact Hfind|]. apply Hlive. intros e He.
  vm_compute in He. injection He as <-. lia.
Defined.

Lemma user_provisioning_idempotent_witness :
  ∃ u session1 session2,
    fst (Demo.verify Demo.alice Demo.message1 Demo.signature1 1000 Demo.started)
    = Json u session1
    ∧ fst (Demo.verify Demo.alice Demo.message2 Demo.signature2 3000
             (run (crypto := Demo.crypto) Demo.options
                [CallStart Demo.alice Demo.random2 2000 Demo.baseURL]
                (snd (Demo.verify Demo.alice Demo.message1 Demo.signature1 1000
                        Demo.started))))
      = Json u session2.
Proof.
  destruct (user_provisioning_idempotent (crypto := Demo.crypto) Demo.options
              Demo.alice Demo.message1 Demo.signature1 1000
              Demo.message2 Demo.signature2 3000
              [CallStart Demo.alice Demo.random2 2000 Demo.baseURL]
              Demo.started)
    as (u & session1 & session2 & H1 & H2 & _).
  - vm_compute. reflexivity.
  - vm_compute. reflexivity.
  - exists u, session1, session2. split; [exact H1 | exact H2].
Defined.

Lemma verify_ignores_message_address_witness :
  address (Demo.fields Demo.bob (lit "n1")) = Demo.bob
  ∧ ∃ u session,
      fst (Demo.verify Demo.alice Demo.bobMessage Demo.bobMessageSignature 1000
             Demo.started) = Json u session
      ∧ ∃ a, Adapter.findAccount (buildAccountId Demo.alice)
               (snd (Demo.verify Demo.alice Demo.bobMessage
                       Demo.bobMessageSignature 1000 Demo.started)) = Some a
             ∧ Adapter.userId a = u.
Proof.
  split; [reflexivity|].
  destruct (verify_ignores_message_address (crypto := Demo.crypto)
              Demo.options Demo.alice (Demo.fields Demo.bob (lit "n1"))
              Demo.bobMessageSignature 1000 Demo.started Demo.record1)
    as (u & session & H1 & H2 & _).
  - apply (bool_decide_unpack (Demo.bob ≠ Demo.alice)). by vm_compute.
  - reflexivity.
  - reflexivity.
  - apply (bool_decide_unpack (LF ∉ lit "n1")). by vm_compute.
  - reflexivity.
  - reflexivity.
  - reflexivity.
  - reflexivity.
  - reflexivity.
  - intros a Ha. vm_compute in Ha. discriminate Ha.
  - exists u, session. split; [exact H1 | exact H2].
Defined.


(** ** Further properties: white space and the nonce line *)

Section Trim.

Implicit Types (s t : list N).

Lemma trimStart_nil s : trimStart s = [] ↔ forallb is_white_space s = true.
Proof.
  induction s as [|c s IH]; [done|]. simpl.
  destruct (is_white_space c); [exact IH|]. split; discriminate.
Qed.

Lemma trimStart_head s c r : trimStart s = c :: r → is_white_space c = false.
Proof.
  induction s as [|x s IH]; [done|]. simpl.
  destruct (is_white_space x) eqn:E; [exact IH|]. by intros [= <- _].
Qed.

Lemma trimStart_fixed s : trimStart (trimStart s) = trimStart s.
Proof.
  destruct (trimStart s) as [|c r] eqn:E; [done|].
  apply trimStart_head in E. simpl. by rewrite E.
Qed.

(** [trimStart] drops a run of white space and nothing else. *)
Lemma trimStart_split s :
  ∃ w, s = w ++ trimStart s ∧ forallb is_white_space w = true.
Proof.
  induction s as [|c s (w & Hs & Hw)]; [by exists []|]. simpl.
  destruct (is_white_space c) eqn:E.
  - exists (c :: w). simpl. rewrite E, Hw. split; [by f_equal|done].
  - by exists [].
Qed.

Lemma forallb_rev (f : N → bool) s : forallb f (rev s) = forallb f s.
Proof.
  induction s as [|c s IH]; [done|]. simpl.
  rewrite forallb_app, IH. simpl. rewrite andb_true_r. apply andb_comm.
Qed.

Lemma trim_nil s : trim s = [] ↔ forallb is_white_space s = true.
Proof.
  unfold trim, trimEnd.
  destruct (trimStart_split s) as (w & Hs & Hw).
  rewrite Hs at 2. rewrite forallb_app, Hw. cbn [andb].
  destruct (trimStart s) as [|c r] eqn:E; [done|].
  pose proof (trimStart_head _ _ _ E) as Hc. split.
  - intros Hnil. apply (f_equal (@length N)) in Hnil.
    rewrite length_rev in Hnil. apply nil_length_inv, trimStart_nil in Hnil.
    rewrite forallb_rev in Hnil. simpl in Hnil. by rewrite Hc in Hnil.
  - simpl. by rewrite Hc.
Qed.

Lemma trimStart_elem s c : c ∈ trimStart s → c ∈ s.
Proof.
  destruct (trimStart_split s) as (w & Hs & _). intros Hc.
  rewrite Hs. apply elem_of_app. by right.
Qed.

Lemma trim_elem s c : c ∈ trim s → c ∈ s.
Proof.
  unfold trim, trimEnd. intros Hc.
  apply list_elem_of_In, in_rev, list_elem_of_In, trimStart_elem in Hc.
  apply list_elem_of_In, in_rev, list_elem_of_In in Hc.
  by apply trimStart_elem.
Qed.

Lemma trim_fixed s : trim (trim s) = trim s.
Proof.
  unfold trim, trimEnd.
  set (t := trimStart s).
  destruct (trimStart (rev t)) as [|c r] eqn:E; [done|].
  pose proof (trimStart_head _ _ _ E) as Hc.
  assert (Hfix : trimStart (c :: r) = c :: r) by (by rewrite <- E, trimStart_fixed).
  destruct (trimStart_split (rev t)) as (w & Ht & Hw). rewrite E in Ht.
  apply (f_equal (@rev N)) in Ht. rewrite rev_involutive, rev_app_distr in Ht.
  (* [t] is [rev (c :: r)] followed by white space and does not start with
     white space, so [rev (c :: r)] starts like [t] *)
  assert (Hhead : trimStart (rev (c :: r)) = rev (c :: r)).
  { destruct (rev (c :: r)) as [|x u] eqn:Eu.
    - done.
    - assert (Hx : is_white_space x = false).
      { assert (Hts : trimStart t = t) by apply trimStart_fixed.
        rewrite Ht in Hts. simpl in Hts.
        destruct (is_white_space x) eqn:Ex; [|done].
        exfalso. apply (f_equal (@length N)) in Hts.
        destruct (trimStart_split (u ++ rev w)) as (w' & Hw' & _).
        apply (f_equal (@length N)) in Hw'.
        simpl in Hts. rewrite !length_app in Hw'. rewrite length_app in Hts.
        lia. }
      simpl. by rewrite Hx. }
  rewrite Hhead, rev_involutive, Hfix. done.
Qed.

End Trim.

Section NonceLine.

Implicit Types (s p message : list N).

Lemma split_lines_no_sep sep s : Forall (λ l, sep ∉ l) (split sep s).
Proof.
  induction s as [|c s IH]; simpl.
  - constructor; [apply not_elem_of_nil|constructor].
  - destruct (N.eqb_spec c sep) as [->|Hne].
    + constructor; [apply not_elem_of_nil|done].
    + destruct (split sep s) as [|l ls] eqn:E; [by apply split_nonempty in E|].
      inversion IH as [|? ? Hl Hls]; subst. constructor; [|done].
      intros [?|?]%elem_of_cons; [congruence|done].
Qed.

(** A prefix without separator stays in front of the first line. *)
Lemma split_prefix sep p s :
  sep ∉ p → ∃ l ls, split sep (p ++ s) = (p ++ l) :: ls.
Proof.
  induction p as [|c p IH]; intros Hp.
  - destruct (split sep s) as [|l ls] eqn:E; [by apply split_nonempty in E|].
    by exists l, ls.
  - apply not_elem_of_cons in Hp as [Hc Hp]. destruct (IH Hp) as (l & ls & E).
    simpl. destruct (N.eqb_spec c sep); [congruence|]. rewrite E. by exists l, ls.
Qed.

Lemma find_startsWith_elem p (ls : list (list N)) l :
  List.find (fun l => startsWith l p) ls = Some l → l ∈ ls ∧ startsWith l p = true.
Proof.
  intros H. apply find_some in H as [Hin Hp]. by rewrite list_elem_of_In.
Qed.

Lemma truthy_trim s : truthy (trim s) = negb (forallb is_white_space s).
Proof.
  destruct (forallb is_white_space s) eqn:E.
  - apply trim_nil in E. by rewrite E.
  - destruct (trim s) eqn:Et; [|done].
    apply trim_nil in Et. congruence.
Qed.

Lemma nonceMissing_line message :
  nonceMissing message
  = match nonceLine message with
    | Some l => forallb is_white_space (slice_from 7 l)
    | None => true
    end.
Proof.
  unfold nonceMissing, nonceFromMsg. destruct (nonceLine message) as [l|]; [|done].
  cbn [fmap option_fmap option_map]. rewrite truthy_trim, negb_involutive.
  reflexivity.
Qed.

(** X1 — "Nonce missing" is answered exactly for a message without a line
    that starts with ["Nonce: "], or whose first such line holds nothing but
    white space after the prefix; the store plays no part in it. *)
Theorem verify_NonceMissing_iff {crypto : Crypto} options addr message signature
    now (s : Adapter.t) :
  fst (verify options addr message signature now s) = NonceMissing
  ↔ match nonceLine message with
    | Some l => forallb is_white_space (slice_from 7 l) = true
    | None => True
    end.
Proof.
  assert (Heq : (match nonceLine message with
                 | Some l => forallb is_white_space (slice_from 7 l) = true
                 | None => True
                 end) ↔ nonceMissing message = true).
  { rewrite nonceMissing_line. by destruct (nonceLine message). }
  rewrite Heq. split.
  - intros Hr. destruct (nonceMissing message) eqn:Hm; [done|].
    destruct (verify options addr message signature now s) as [r s'] eqn:E.
    cbn in Hr. subst r. clear Heq. verify_cases.
  - intros Hm. unfold verify. by rewrite Hm.
Qed.

(** X2 — the nonce taken out of a message never holds a line feed and has
    no white space at either end. *)
Theorem nonceFromMsg_shape message n :
  nonceFromMsg message = Some n → (LF ∉ n) ∧ trim n = n.
Proof.
  unfold nonceFromMsg, nonceLine. intros H.
  apply fmap_Some in H as (l & Hfind & ->).
  apply find_startsWith_elem in Hfind as [Hin _].
  split; [|apply trim_fixed].
  pose proof (split_lines_no_sep LF message) as Hall.
  rewrite Forall_forall in Hall. intros Hlf. apply (Hall l Hin).
  apply trim_elem in Hlf. unfold slice_from in Hlf.
  rewrite <- (take_drop (length (lit "Nonce: ")) l). apply elem_of_app. by right.
Qed.

Lemma nonceFromMsg_shape_witness :
  nonceFromMsg Demo.paddedMessage = Some (lit "n1")
  ∧ (LF ∉ lit "n1") ∧ trim (lit "n1") = lit "n1".
Proof.
  split; [reflexivity|].
  apply (nonceFromMsg_shape Demo.paddedMessage (lit "n1")). reflexivity.
Defined.

(** X3 — every message [buildSiwsMessage] produces has a line that starts
    with ["Nonce: "]; and when nothing in front of the nonce line starts
    that way and the nonce holds no line feed, the built message counts as
    "Nonce missing" exactly when the nonce is empty or all white space. *)
Theorem buildSiwsMessage_nonce_line i :
  (∃ l, nonceLine (buildSiwsMessage i) = Some l)
  ∧ (nonceLine (join [LF] (preamble i)) = None →
     LF ∉ nonce i →
     nonceMissing (buildSiwsMessage i) = forallb is_white_space (nonce i)).
Proof.
  split.
  - rewrite buildSiwsMessage_lines. unfold canonicalLines, nonceLine.
    change ([?x; ?y] ++ ?t) with (x :: y :: t).
    rewrite join_app by done. change ([LF] ++ ?t) with (LF :: t).
    rewrite split_app, find_app.
    destruct (List.find _ (split LF (join [LF] (preamble i)))) as [l|]; [eauto|].
    rewrite join_cons, <- app_assoc.
    match goal with
    | |- context [split LF (lit "Nonce: " ++ ?x)] =>
        destruct (split_prefix LF (lit "Nonce: ") x) as (l & ls & ->)
    end.
    { apply (bool_decide_unpack (LF ∉ lit "Nonce: ")). by vm_compute. }
    cbn [List.find]. rewrite startsWith_app. eauto.
  - intros Hpre Hlf. rewrite nonceMissing_line, nonceLine_build by done.
    unfold slice_from. change 7%nat with (length (lit "Nonce: ")).
    by rewrite drop_app_length.
Qed.

Lemma buildSiwsMessage_nonce_line_witness :
  nonceMissing (buildSiwsMessage Demo.blankNonceFields) = true.
Proof.
  rewrite (proj2 (buildSiwsMessage_nonce_line Demo.blankNonceFields)).
  - reflexivity.
  - reflexivity.
  - apply (bool_decide_unpack (LF ∉ lit "  ")). by vm_compute.
Defined.

End NonceLine.

(** ** Further properties: domain binding and display names *)

Section DomainAndNames.

Implicit Types (a b x y d : list N).

(** Two space-free words followed by a space: the first text starts with
    the second only when the words are equal. *)
Lemma startsWith_word a b x y :
  SP ∉ a → SP ∉ b →
  startsWith (a ++ SP :: x) (b ++ SP :: y) = true → a = b.
Proof.
  revert a. induction b as [|e b IH]; intros [|c a] Ha Hb H;
    cbn [startsWith app] in H.
  - done.
  - apply andb_true_iff in H as [Hc%N.eqb_eq _]. subst c.
    by apply not_elem_of_cons in Ha as [? _].
  - apply andb_true_iff in H as [He%N.eqb_eq _]. subst e.
    by apply not_elem_of_cons in Hb as [? _].
  - apply andb_true_iff in H as [Hc%N.eqb_eq H]. subst e.
    apply not_elem_of_cons in Ha as [_ Ha].
    apply not_elem_of_cons in Hb as [_ Hb]. f_equal. by apply IH.
Qed.

(** X4 — for domains without a space, the domain check of [verify] accepts
    a built message exactly when the message was built for the configured
    domain. *)
Theorem domain_binding_exact i d :
  SP ∉ domain i → SP ∉ d →
  startsWith (buildSiwsMessage i) (d ++ lit " wants you to sign in") = true
  ↔ domain i = d.
Proof.
  intros Hi Hd. split.
  - rewrite buildSiwsMessage_lines. unfold canonicalLines, preamble.
    cbn [app]. rewrite join_cons, <- app_assoc.
    change (lit " wants you to sign in with your Solana account:")
      with (SP :: lit "wants you to sign in with your Solana account:").
    change (lit " wants you to sign in")
      with (SP :: lit "wants you to sign in").
    cbn [app]. by apply startsWith_word.
  - intros <-. apply startsWith_build.
Qed.

Lemma domain_binding_exact_witness :
  startsWith (buildSiwsMessage Demo.fullFields)
    (lit "app.example.org" ++ lit " wants you to sign in") = false.
Proof.
  destruct (startsWith (buildSiwsMessage Demo.fullFields)
              (lit "app.example.org" ++ lit " wants you to sign in")) eqn:E;
    [|reflexivity].
  apply (domain_binding_exact Demo.fullFields (lit "app.example.org")) in E.
  - vm_compute in E. discriminate E.
  - apply (bool_decide_unpack (SP ∉ lit "app.example.com")). by vm_compute.
  - apply (bool_decide_unpack (SP ∉ lit "app.example.org")). by vm_compute.
Defined.

(** X5 — display names are not unique.  Two addresses of at least four
    code units get the same user name exactly when they agree on their
    first four and on their last four code units. *)
Theorem userName_collision a b :
  (4 ≤ length a)%nat → (4 ≤ length b)%nat →
  userName a = userName b
  ↔ slice_to 4 a = slice_to 4 b ∧ slice_last 4 a = slice_last 4 b.
Proof.
  unfold userName, slice_to, slice_last. intros Ha Hb. split.
  - intros H. apply app_inv_head in H.
    apply app_inj_1 in H as [Ht H]; [|rewrite !length_take; lia].
    by apply app_inv_head in H.
  - by intros [-> ->].
Qed.

Lemma userName_collision_witness :
  Demo.alice ≠ Demo.aliceTwin
  ∧ addressOk Demo.aliceTwin = true
  ∧ userName Demo.alice = userName Demo.aliceTwin.
Proof.
  split; [apply (bool_decide_unpack (Demo.alice ≠ Demo.aliceTwin)); by vm_compute|].
  split; [reflexivity|].
  apply (userName_collision Demo.alice Demo.aliceTwin);
    [vm_compute; lia | vm_compute; lia | split; reflexivity].
Defined.

End DomainAndNames.

(** ** Further properties: the responses of verify *)

Section Responses.

Context {crypto : Crypto}.
Variable options : SiwsOptions.t.

Implicit Types (addr message signature : list N) (s : Adapter.t).

(** What a 200 answer tells about the call. *)
Lemma verify_Json_inv addr message signature now s u session s' :
  verify options addr message signature now s = (Json u session, s') →
  nonceMissing message = false
  ∧ (∃ v, Adapter.findVerificationValue (lit "siws:" ++ addr) s = Some v
          ∧ live now v = true)
  ∧ startsWith message
      (SiwsOptions.domain options ++ lit " wants you to sign in") = true
  ∧ verifySignature signature message addr = Some true
  ∧ (∀ a, Adapter.findAccount (buildAccountId addr) s = Some a →
          is_Some (Adapter.users s !! Adapter.userId a)).
Proof.
  intros H. unfold verify in H.
  destruct (nonceMissing message); [done|].
  destruct (Adapter.findVerificationValue _ s) as [v|] eqn:Hf; [|done].
  destruct (dateNotAfter (Adapter.expiresAt v) now) eqn:He; [done|].
  apply live_true_iff in He.
  destruct (startsWith message _) eqn:Hd; [|done]. cbn [negb] in H.
  destruct (verifySignature signature message addr) as [[|]|] eqn:Hs; try done.
  repeat split; eauto.
  intros a Ha. unfold Adapter.findAccount in *.
  cbn [Adapter.deleteVerificationValue Adapter.accounts] in H.
  rewrite Ha in H. unfold Adapter.findUserById in H.
  unfold Adapter.deleteVerificationValue in H. cbn [Adapter.users] in H.
  destruct (Adapter.users s !! Adapter.userId a); [eauto|done].
Qed.

(** The session of a 200 answer is the one of the returned user. *)
Lemma verify_Json_session addr message signature now s u session s' :
  verify options addr message signature now s = (Json u session, s') →
  Adapter.sessionUserId session = u.
Proof.
  intros H. verify_cases; [|done].
  match goal with
  | H : _ <$> _ = Some _ |- _ => apply fmap_Some in H as (d & Hd & ->)
  end.
  done.
Qed.

(** X6 — verify answers 200 exactly when the message carries a nonce, a
    live record is stored for the address, the message begins with the
    configured domain and greeting, the signature check returns true, and
    the account of the address, if there is one, points to a user that
    exists. *)
Theorem verify_success_iff addr message signature now s :
  (∃ u session,
     fst (verify options addr message signature now s) = Json u session)
  ↔ nonceMissing message = false
    ∧ (∃ v, Adapter.findVerificationValue (lit "siws:" ++ addr) s = Some v
            ∧ live now v = true)
    ∧ startsWith message
        (SiwsOptions.domain options ++ lit " wants you to sign in") = true
    ∧ verifySignature signature message addr = Some true
    ∧ (∀ a, Adapter.findAccount (buildAccountId addr) s = Some a →
            is_Some (Adapter.users s !! Adapter.userId a)).
Proof.
  split.
  - intros (u & session & H).
    destruct (verify options addr message signature now s) as [r s'] eqn:E.
    cbn in H. subst r. by eapply verify_Json_inv.
  - intros (Hm & (v & Hf & He) & Hd & Hs & Hu).
    destruct (verify_success options addr message signature now s v
                Hm Hf He Hd Hs Hu) as (u & session & s' & -> & _).
    by exists u, session.
Qed.

(** X7 — verify answers 401 exactly when the message carries a nonce, a
    live record is stored for the address, the message begins with the
    configured domain and greeting, and the signature check returns false;
    the record is then consumed and nothing else in the store changes. *)
Theorem verify_401_iff addr message signature now s :
  (status (fst (verify options addr message signature now s)) = 401%nat
   ↔ nonceMissing message = false
     ∧ (∃ v, Adapter.findVerificationValue (lit "siws:" ++ addr) s = Some v
             ∧ live now v = true)
     ∧ startsWith message
         (SiwsOptions.domain options ++ lit " wants you to sign in") = true
     ∧ verifySignature signature message addr = Some false)
  ∧ (status (fst (verify options addr message signature now s)) = 401%nat →
     snd (verify options addr message signature now s)
     = Adapter.deleteVerificationValue (lit "siws:" ++ addr) s).
Proof.
  unfold verify.
  destruct (nonceMissing message); [by split; [split; [|intros (? & _)]|]|].
  destruct (Adapter.findVerificationValue _ s) as [v|] eqn:Hf;
    [|split; [split; [done|intros (_ & (? & ? & _) & _); done]|done]].
  destruct (dateNotAfter (Adapter.expiresAt v) now) eqn:He.
  { split; [split; [done|]|done].
    intros (_ & (w & [= <-] & Hw%live_true_iff) & _). congruence. }
  apply live_true_iff in He.
  destruct (startsWith message _) eqn:Hd; cbn [negb];
    [|split; [split; [done|intros (_ & _ & ? & _); done]|done]].
  destruct (verifySignature signature message addr) as [[|]|] eqn:Hs.
  - split; [split; [|intros (_ & _ & _ & ?); done]|].
    + unfold issueSession, Adapter.createOAuthUser, Adapter.createSession.
      repeat case_match; simplify_eq/=; done.
    + unfold issueSession, Adapter.createOAuthUser, Adapter.createSession.
      repeat case_match; simplify_eq/=; done.
  - split; [split; [eauto 10|done]|done].
  - split; [split; [done|intros (_ & _ & _ & ?); done]|done].
Qed.

(** X8 — sessions, users and accounts are written only on success.  A 200
    answer appends exactly the returned session, which belongs to the
    returned user, and that user is in the store; every other answer leaves
    users, accounts and sessions as they were. *)
Theorem verify_session_issued addr message signature now s :
  match fst (verify options addr message signature now s) with
  | Json u session =>
      Adapter.sessions (snd (verify options addr message signature now s))
      = Adapter.sessions s ++ [session]
      ∧ Adapter.sessionUserId session = u
      ∧ is_Some (Adapter.users
                   (snd (verify options addr message signature now s)) !! u)
  | _ =>
      Adapter.sessions (snd (verify options addr message signature now s))
      = Adapter.sessions s
      ∧ Adapter.users (snd (verify options addr message signature now s))
        = Adapter.users s
      ∧ Adapter.accounts (snd (verify options addr message signature now s))
        = Adapter.accounts s
  end.
Proof.
  destruct (verify options addr message signature now s) as [r s'] eqn:E.
  cbn [fst snd]. verify_cases; try done.
  - match goal with
    | H : _ <$> _ = Some _ |- _ => apply fmap_Some in H as (d & Hd & ->)
    end.
    cbn. rewrite Hd. eauto.
  - rewrite lookup_insert_eq. eauto.
Qed.

(** X9 — provisioning.  When no account is stored under the key
    ["siws:" + address], a 200 answer comes with a user under an id no user
    had, with the address as e-mail, marked verified and named by
    [userName], and with an account of provider ["siws"] and account-id
    ["siws:" + address] stored under that key and bound to that user;
    nothing else is added to users or accounts. *)
Theorem verify_provisions_user addr message signature now s u session :
  Adapter.accounts s !! (lit "siws:" ++ addr) = None →
  fst (verify options addr message signature now s) = Json u session →
  Adapter.users s !! u = None
  ∧ Adapter.users (snd (verify options addr message signature now s))
    = <[u := {| Adapter.email := addr; Adapter.emailVerified := true;
                Adapter.name := userName addr |}]> (Adapter.users s)
  ∧ Adapter.accounts (snd (verify options addr message signature now s))
    = <[lit "siws:" ++ addr :=
          {| Adapter.providerId := lit "siws";
             Adapter.accountId := lit "siws:" ++ addr;
             Adapter.userId := u |}]> (Adapter.accounts s).
Proof.
  intros Hnone.
  destruct (verify options addr message signature now s) as [r s'] eqn:E.
  cbn [fst snd]. intros ->. unfold verify, Adapter.findAccount in E.
  unfold buildAccountId in E.
  cbn [Adapter.deleteVerificationValue Adapter.accounts] in E.
  rewrite Hnone in E. verify_cases.
  split; [|done]. apply not_elem_of_dom, is_fresh.
Qed.

End Responses.

(** ** Further properties: calls in sequence *)

Section Sequences.

Context {crypto : Crypto}.
Variable options : SiwsOptions.t.

Implicit Types (addr message signature : list N) (s : Adapter.t).

Lemma siws_identifier_inj addr addr' :
  lit "siws:" ++ addr' = lit "siws:" ++ addr → addr' = addr.
Proof. apply app_inv_head. Qed.

(** The challenge records after a verify call: those before it, without
    the one of the address when the call got past the lookup. *)
Lemma verify_verifications addr message signature now s :
  Adapter.verifications (snd (verify options addr message signature now s))
  = if returnsBeforeDelete (fst (verify options addr message signature now s))
    then Adapter.verifications s
    else delete (lit "siws:" ++ addr) (Adapter.verifications s).
Proof.
  destruct (verify options addr message signature now s) as [r s'] eqn:E.
  cbn [fst snd]. apply verify_store in E.
  destruct (returnsBeforeDelete r); [by subst|by destruct E].
Qed.

Lemma verify_monotone addr message signature now s :
  Adapter.users s ⊆ Adapter.users (snd (verify options addr message signature now s))
  ∧ Adapter.accounts s
    ⊆ Adapter.accounts (snd (verify options addr message signature now s))
  ∧ Adapter.sessions s
    `prefix_of` Adapter.sessions (snd (verify options addr message signature now s)).
Proof.
  destruct (verify options addr message signature now s) as [r s'] eqn:E.
  cbn [fst snd]. verify_cases; repeat split; try done;
    try (by apply prefix_app_r).
  - apply insert_subseteq, not_elem_of_dom, is_fresh.
  - by apply insert_subseteq.
Qed.

(** X10 — the plugin only ever adds to the identity store.  Through any
    sequence of start and verify calls every user and every account keeps
    its entry unchanged, and the list of sessions only grows at its end. *)
Theorem run_identity_monotone cs s :
  Adapter.users s ⊆ Adapter.users (run options cs s)
  ∧ Adapter.accounts s ⊆ Adapter.accounts (run options cs s)
  ∧ Adapter.sessions s `prefix_of` Adapter.sessions (run options cs s).
Proof.
  revert s. induction cs as [|c cs IH]; intros s; [done|].
  cbn [run foldl]. destruct (IH (call options c s)) as (Hu & Ha & Hs).
  assert (Hc : Adapter.users s ⊆ Adapter.users (call options c s)
               ∧ Adapter.accounts s ⊆ Adapter.accounts (call options c s)
               ∧ Adapter.sessions s `prefix_of` Adapter.sessions (call options c s)).
  { destruct c; cbn [call]; [done|apply verify_monotone]. }
  destruct Hc as (Hu' & Ha' & Hs').
  repeat split; etrans; eauto.
Qed.

(** X11 — calls for one address leave the other addresses alone: a start
    or verify call for [addr] changes neither the challenge record nor the
    account stored for a different address. *)
Theorem calls_isolated addr addr' message signature random now baseURL s :
  addr' ≠ addr →
  Adapter.findVerificationValue (lit "siws:" ++ addr')
    (snd (verify options addr message signature now s))
  = Adapter.findVerificationValue (lit "siws:" ++ addr') s
  ∧ Adapter.findAccount (buildAccountId addr')
      (snd (verify options addr message signature now s))
    = Adapter.findAccount (buildAccountId addr') s
  ∧ Adapter.findVerificationValue (lit "siws:" ++ addr')
      (snd (start options addr random now baseURL s))
    = Adapter.findVerificationValue (lit "siws:" ++ addr') s
  ∧ Adapter.findAccount (buildAccountId addr')
      (snd (start options addr random now baseURL s))
    = Adapter.findAccount (buildAccountId addr') s.
Proof.
  intros Hne.
  assert (Hk : lit "siws:" ++ addr ≠ lit "siws:" ++ addr').
  { intros Heq. by apply siws_identifier_inj in Heq. }
  split; [|split; [|split]].
  - unfold Adapter.findVerificationValue. rewrite verify_verifications.
    destruct (returnsBeforeDelete _); [done|]. by rewrite lookup_delete_ne.
  - destruct (verify options addr message signature now s) as [r s'] eqn:E.
    cbn [snd]. unfold buildAccountId. verify_cases; try done.
    unfold buildAccountId. by rewrite lookup_insert_ne.
  - unfold start, Adapter.findVerificationValue. cbn.
    by rewrite lookup_insert_ne.
  - done.
Qed.

(** Without a start for an address, no challenge record appears for it. *)
Lemma run_no_challenge addr cs s :
  startsFor addr cs = false →
  Adapter.findVerificationValue (lit "siws:" ++ addr) s = None →
  Adapter.findVerificationValue (lit "siws:" ++ addr) (run options cs s) = None.
Proof.
  revert s. induction cs as [|c cs IH]; intros s Hcs Hs; [done|].
  cbn [startsFor existsb] in Hcs. apply orb_false_iff in Hcs as [Hc Hcs].
  cbn [run foldl]. apply IH; [done|].
  unfold Adapter.findVerificationValue in *. destruct c as [a ? ? ?|a m sg t].
  - apply bool_decide_eq_false in Hc. cbn.
    rewrite lookup_insert_ne; [done|].
    intros Heq. by apply siws_identifier_inj in Heq.
  - cbn [call]. rewrite verify_verifications.
    destruct (returnsBeforeDelete _); [done|].
    destruct (decide (lit "siws:" ++ a = lit "siws:" ++ addr)) as [->|Hne].
    + apply lookup_delete_eq.
    + by rewrite lookup_delete_ne.
Qed.

(** X12 — a consumed challenge stays consumed until the next start.  Once
    a verify call has got past the lookup (whatever it answered after
    that: domain mismatch, invalid signature, an exception or 200), every
    later verify call for the address, with any message and signature,
    after any calls that hold no start for the address, is answered "Nonce
    missing" or "Nonce invalid or expired" and changes nothing. *)
Theorem challenge_burned_until_start
    addr message signature now between message' signature' now' s :
  returnsBeforeDelete
    (fst (verify options addr message signature now s)) = false →
  startsFor addr between = false →
  fst (verify options addr message' signature' now'
         (run options between
            (snd (verify options addr message signature now s))))
  ∈ [NonceMissing; NonceInvalidOrExpired]
  ∧ snd (verify options addr message' signature' now'
           (run options between
              (snd (verify options addr message signature now s))))
    = run options between (snd (verify options addr message signature now s)).
Proof.
  intros Hpast Hbetween.
  set (s1 := snd (verify options addr message signature now s)).
  assert (Hgone : Adapter.findVerificationValue (lit "siws:" ++ addr) s1 = None).
  { unfold Adapter.findVerificationValue. subst s1.
    rewrite verify_verifications, Hpast. apply lookup_delete_eq. }
  apply (run_no_challenge addr between s1 Hbetween) in Hgone.
  unfold verify. destruct (nonceMissing message').
  - split; [set_solver|done].
  - rewrite Hgone. split; [set_solver|done].
Qed.

(** X13 — lifetime of a challenge.  After a start at time [now], a verify
    call for the address whose message carries a nonce is answered "Nonce
    invalid or expired" exactly when the expiry date start computed, [new
    Date(now + ttl * 1000)] with [ttl] the configured [nonceTtlSeconds] or
    300, is a valid date at or before the time of the verify call.  A
    record whose expiry date is invalid therefore never expires. *)
Theorem challenge_lifetime addr random now baseURL message signature now' s :
  nonceMissing message = false →
  fst (verify options addr message signature now'
         (snd (start options addr random now baseURL s)))
  = NonceInvalidOrExpired
  ↔ ∃ e, startExpiresAt options now = Some e ∧ e ≤ now'.
Proof.
  intros Hm.
  set (v := {| Adapter.value := bs58_encode random;
               Adapter.expiresAt := startExpiresAt options now |}).
  assert (Hf : Adapter.findVerificationValue (lit "siws:" ++ addr)
                 (snd (start options addr random now baseURL s)) = Some v).
  { unfold start, Adapter.findVerificationValue. cbn. apply lookup_insert_eq. }
  assert (Hlive : live now' v = false
                  ↔ ∃ e, startExpiresAt options now = Some e ∧ e ≤ now').
  { unfold live, v. cbn [Adapter.expiresAt]. rewrite negb_false_iff.
    destruct (startExpiresAt options now) as [e|]; cbn [dateNotAfter].
    - rewrite Z.leb_le. split; [eauto|by intros (? & [= <-] & ?)].
    - split; [done|by intros (? & ? & _)]. }
  rewrite <- Hlive. split.
  - intros Hr. destruct (live now' v) eqn:Hl; [|done].
    destruct (verify_consumes options addr message signature now' _ v Hm Hf Hl)
      as [Hpast _].
    rewrite Hr in Hpast. discriminate Hpast.
  - intros Hl. by rewrite (verify_expired options addr message signature now' _ v).
Qed.

(** X14 — the sign-in flow goes through.  Take the answer of start, build
    the message from its domain, uri and nonce together with the submitted
    address, and sign it.  When the encoded nonce is non-empty, free of
    line feeds and of surrounding white space, nothing in front of the
    nonce line starts with ["Nonce: "], the call comes before the expiry
    date start computed (when that date is valid) and the signature check
    returns true, verify answers 200 with a session of the returned user. *)
Theorem start_then_verify
    addr random now baseURL s st issued expiration res signature now' :
  let out := start options addr random now baseURL s in
  let i := {| domain := StartResponse.domain (fst out);
              address := addr;
              uri := StartResponse.uri (fst out);
              statement := st;
              nonce := StartResponse.nonce (fst out);
              issuedAt := issued;
              expirationTime := expiration;
              resources := res |} in
  nonceLine (join [LF] (preamble i)) = None →
  LF ∉ bs58_encode random →
  trim (bs58_encode random) = bs58_encode random →
  truthy (bs58_encode random) = true →
  (∀ e, startExpiresAt options now = Some e → now' < e) →
  verifySignature signature (buildSiwsMessage i) addr = Some true →
  (∀ a, Adapter.findAccount (buildAccountId addr) s = Some a →
        is_Some (Adapter.users s !! Adapter.userId a)) →
  ∃ u session,
    fst (verify options addr (buildSiwsMessage i) signature now' (snd out))
    = Json u session
    ∧ Adapter.sessionUserId session = u
    ∧ Adapter.findVerificationValue (lit "siws:" ++ addr)
        (snd (verify options addr (buildSiwsMessage i) signature now' (snd out)))
      = None.
Proof.
  intros out i Hpre Hlf Htrim Htruthy Hnow Hsig Husers.
  assert (Hm : nonceMissing (buildSiwsMessage i) = false).
  { unfold nonceMissing. rewrite nonceFromMsg_build by done.
    cbn [nonce i StartResponse.nonce out start fst]. by rewrite Htruthy. }
  pose proof (startsWith_build i) as Hd.
  set (v := {| Adapter.value := bs58_encode random;
               Adapter.expiresAt := startExpiresAt options now |}).
  assert (Hf : Adapter.findVerificationValue (lit "siws:" ++ addr) (snd out)
               = Some v).
  { unfold out, start, Adapter.findVerificationValue. cbn. apply lookup_insert_eq. }
  assert (Hlive : live now' v = true).
  { unfold live, v. cbn [Adapter.expiresAt].
    destruct (startExpiresAt options now) as [e|] eqn:He; [|done].
    cbn [dateNotAfter]. apply negb_true_iff, Z.leb_gt. by apply Hnow. }
  destruct (verify_success options addr (buildSiwsMessage i) signature now'
              (snd out) v Hm Hf Hlive Hd Hsig Husers)
    as (u & session & s' & E & Hgone & _).
  exists u, session. rewrite E. cbn [fst snd]. split; [done|]. split; [|done].
  by eapply verify_Json_session.
Qed.

End Sequences.

(** ** Further properties: invariants of the store *)

Section Invariants.

Context {crypto : Crypto}.
Variable options : SiwsOptions.t.

Implicit Types (addr message signature : list N) (s : Adapter.t).

Lemma verify_accounts_sound addr message signature now s :
  accountsSound s →
  accountsSound (snd (verify options addr message signature now s)).
Proof.
  intros Hs. destruct (verify options addr message signature now s)
    as [r s'] eqn:E. cbn [snd].
  verify_cases; try done.
  unfold accountsSound in *. cbn [Adapter.accounts Adapter.users].
  intros k a. destruct (decide (buildAccountId addr = k)) as [<-|Hne].
  - rewrite lookup_insert_eq. intros [= <-]. cbn.
    rewrite lookup_insert_eq. eauto.
  - rewrite lookup_insert_ne by done. intros Ha.
    destruct (Hs k a Ha) as (? & ? & [d Hd]). repeat split; [done..|].
    exists d. rewrite lookup_insert_ne; [done|].
    intros Heq. pose proof (is_fresh (dom (Adapter.users s))) as Hfresh.
    rewrite Heq in Hfresh. apply Hfresh, elem_of_dom. eauto.
Qed.

(** X15 — accounts stay sound.  When every stored account sits under its
    own account-id with provider ["siws"] and points to a stored user, the
    same holds after any sequence of start and verify calls; the empty
    store is such a store; and on such a store verify never throws for a
    missing user: with a nonce in the message, a live record, the right
    domain and a true signature check it answers 200. *)
Theorem run_accounts_sound cs s :
  accountsSound Adapter.empty
  ∧ (accountsSound s →
     accountsSound (run options cs s)
     ∧ ∀ addr message signature now v,
         nonceMissing message = false →
         Adapter.findVerificationValue (lit "siws:" ++ addr) (run options cs s)
         = Some v →
         live now v = true →
         startsWith message
           (SiwsOptions.domain options ++ lit " wants you to sign in") = true →
         verifySignature signature message addr = Some true →
         ∃ u session,
           fst (verify options addr message signature now (run options cs s))
           = Json u session).
Proof.
  split; [by intros k a Ha|]. intros Hs.
  assert (Hrun : accountsSound (run options cs s)).
  { revert s Hs. induction cs as [|c cs IH]; intros s Hs; [done|].
    cbn [run foldl]. apply IH. destruct c; cbn [call]; [done|].
    by apply verify_accounts_sound. }
  split; [done|]. intros addr message signature now v Hm Hf He Hd Hsig.
  destruct (verify_success options addr message signature now _ v
              Hm Hf He Hd Hsig) as (u & session & s' & -> & _).
  - intros a Ha. by apply (Hrun _ a Ha).
  - eauto.
Qed.

Lemma call_other_address addr c s :
  match c with
  | CallStart a _ _ _ | CallVerify a _ _ _ => a ≠ addr
  end →
  Adapter.findVerificationValue (lit "siws:" ++ addr) (call options c s)
  = Adapter.findVerificationValue (lit "siws:" ++ addr) s
  ∧ Adapter.findAccount (buildAccountId addr) (call options c s)
    = Adapter.findAccount (buildAccountId addr) s.
Proof.
  destruct c as [a ? ? ?|a m sg t]; intros Hne; cbn [call].
  - split; [|done]. unfold start, Adapter.findVerificationValue. cbn.
    rewrite lookup_insert_ne; [done|].
    intros Heq. by apply siws_identifier_inj in Heq.
  - assert (Hk : lit "siws:" ++ a ≠ lit "siws:" ++ addr).
    { intros Heq. by apply siws_identifier_inj in Heq. }
    split.
    + unfold Adapter.findVerificationValue. rewrite verify_verifications.
      destruct (returnsBeforeDelete _); [done|]. by rewrite lookup_delete_ne.
    + destruct (verify options a m sg t s) as [r s'] eqn:E.
      cbn [snd]. unfold buildAccountId. verify_cases; try done.
      unfold buildAccountId. by rewrite lookup_insert_ne.
Qed.

(** X16 — the body schema keeps short addresses out of the store.  For an
    address of fewer than 32 code units, no sequence of requests to the two
    endpoints changes the challenge record or the account stored for it; so
    starting from the empty store there is never one. *)
Theorem endpoints_reject_short_address addr cs s :
  addressOk addr = false →
  Adapter.findVerificationValue (lit "siws:" ++ addr) (runEndpoints options cs s)
  = Adapter.findVerificationValue (lit "siws:" ++ addr) s
  ∧ Adapter.findAccount (buildAccountId addr) (runEndpoints options cs s)
    = Adapter.findAccount (buildAccountId addr) s.
Proof.
  intros Hshort. revert s. induction cs as [|c cs IH]; intros s; [done|].
  change (runEndpoints options (c :: cs) s)
    with (runEndpoints options cs (callEndpoint options c s)).
  destruct (IH (callEndpoint options c s)) as [-> ->].
  destruct c as [a rnd t b|a m sg t]; cbn [callEndpoint];
    [rewrite startEndpoint_handler|rewrite verifyEndpoint_handler];
    destruct (addressOk a) eqn:Ha; cbn [snd]; try done.
  - apply (call_other_address addr (CallStart a rnd t b) s). congruence.
  - apply (call_other_address addr (CallVerify a m sg t) s). congruence.
Qed.

End Invariants.

(** ** The further properties on concrete runs *)

Lemma verify_provisions_user_witness :
  Adapter.users
    (snd (Demo.verify Demo.alice Demo.message1 Demo.signature1 1000 Demo.started))
  = <[0%nat := {| Adapter.email := Demo.alice; Adapter.emailVerified := true;
                  Adapter.name := userName Demo.alice |}]> ∅.
Proof.
  apply (verify_provisions_user (crypto := Demo.crypto) Demo.options Demo.alice
           Demo.message1 Demo.signature1 1000 Demo.started 0%nat
           {| Adapter.token := 0; Adapter.sessionUserId := 0 |});
    reflexivity.
Defined.

Lemma calls_isolated_witness :
  Adapter.findVerificationValue Demo.aliceId
    (snd (Demo.verify Demo.bob Demo.message1 Demo.signature1 1000 Demo.started))
  = Some Demo.record1.
Proof.
  rewrite (proj1 (calls_isolated (crypto := Demo.crypto) Demo.options
                    Demo.bob Demo.alice Demo.message1 Demo.signature1
                    Demo.random1 1000 Demo.baseURL Demo.started
                    ltac:(apply (bool_decide_unpack (Demo.alice ≠ Demo.bob));
                          by vm_compute))).
  reflexivity.
Defined.

Lemma challenge_burned_until_start_witness :
  fst (Demo.verify Demo.alice Demo.message1 (Demo.sign Demo.bob Demo.message1)
         1000 Demo.started) = InvalidSignature
  ∧ fst (Demo.verify Demo.alice Demo.message1 Demo.signature1 2000
           (run (crypto := Demo.crypto) Demo.options
              [CallStart Demo.bob Demo.random2 1500 Demo.baseURL]
              (snd (Demo.verify Demo.alice Demo.message1
                      (Demo.sign Demo.bob Demo.message1) 1000 Demo.started))))
    ∈ [NonceMissing; NonceInvalidOrExpired].
Proof.
  split; [reflexivity|].
  apply (challenge_burned_until_start (crypto := Demo.crypto) Demo.options
           Demo.alice Demo.message1 (Demo.sign Demo.bob Demo.message1) 1000
           [CallStart Demo.bob Demo.random2 1500 Demo.baseURL]
           Demo.message1 Demo.signature1 2000 Demo.started);
    reflexivity.
Defined.

Lemma challenge_lifetime_witness :
  startExpiresAt Demo.options 0 = Some 300000
  ∧ fst (Demo.verify Demo.alice Demo.message1 Demo.signature1 300000
           (snd (Demo.start Demo.alice Demo.random1 0 Demo.baseURL Adapter.empty)))
    = NonceInvalidOrExpired
  ∧ startExpiresAt Demo.halfMsOptions 1700000000000 = Some 1700000000000
  ∧ fst (verify (crypto := Demo.crypto) Demo.halfMsOptions Demo.alice
           Demo.message1 Demo.signature1 1700000000000
           (snd (start (crypto := Demo.crypto) Demo.halfMsOptions Demo.alice
                   Demo.random1 1700000000000 Demo.baseURL Adapter.empty)))
    = NonceInvalidOrExpired
  ∧ startExpiresAt Demo.nanTtlOptions 0 = None
  ∧ fst (verify (crypto := Demo.crypto) Demo.nanTtlOptions Demo.alice
           Demo.message1 Demo.signature1 8640000000000000
           (snd (start (crypto := Demo.crypto) Demo.nanTtlOptions Demo.alice
                   Demo.random1 0 Demo.baseURL Adapter.empty)))
    ≠ NonceInvalidOrExpired.
Proof.
  split; [reflexivity|]. split.
  { apply (challenge_lifetime (crypto := Demo.crypto) Demo.options Demo.alice
             Demo.random1 0 Demo.baseURL Demo.message1 Demo.signature1 300000
             Adapter.empty eq_refl).
    exists 300000. split; [reflexivity|lia]. }
  split; [reflexivity|]. split.
  { apply (challenge_lifetime (crypto := Demo.crypto) Demo.halfMsOptions
             Demo.alice Demo.random1 1700000000000 Demo.baseURL Demo.message1
             Demo.signature1 1700000000000 Adapter.empty eq_refl).
    exists 1700000000000. split; [reflexivity|lia]. }
  split; [reflexivity|].
  intros H.
  apply (challenge_lifetime (crypto := Demo.crypto) Demo.nanTtlOptions
           Demo.alice Demo.random1 0 Demo.baseURL Demo.message1
           Demo.signature1 8640000000000000 Adapter.empty eq_refl) in H.
  destruct H as (e & He & _). vm_compute in He. discriminate He.
Defined.

Lemma start_then_verify_witness :
  ∃ u session,
    fst (Demo.verify Demo.alice Demo.message1 Demo.signature1 1000
           (snd (Demo.start Demo.alice Demo.random1 0 Demo.baseURL Adapter.empty)))
    = Json u session
    ∧ Adapter.sessionUserId session = u.
Proof.
  destruct (start_then_verify (crypto := Demo.crypto) Demo.options Demo.alice
              Demo.random1 0 Demo.baseURL Adapter.empty None
              (lit "2024-01-01T00:00:00Z") None None Demo.signature1 1000)
    as (u & session & H1 & H2 & _).
  - reflexivity.
  - apply (bool_decide_unpack (LF ∉ lit "n1")). by vm_compute.
  - reflexivity.
  - reflexivity.
  - intros e He. vm_compute in He. injection He as <-. lia.
  - reflexivity.
  - intros a Ha. vm_compute in Ha. discriminate Ha.
  - exists u, session. split; [exact H1 | exact H2].
Defined.

Lemma run_accounts_sound_witness :
  accountsSound
    (run (crypto := Demo.crypto) Demo.options
       [CallVerify Demo.alice Demo.message1 Demo.signature1 1000] Demo.started).
Proof.
  apply (run_accounts_sound (crypto := Demo.crypto) Demo.options
           [CallVerify Demo.alice Demo.message1 Demo.signature1 1000]
           Demo.started).
  intros k a Ha. vm_compute in Ha. discriminate Ha.
Defined.

Lemma endpoints_reject_short_address_witness :
  Adapter.findVerificationValue (lit "siws:" ++ lit "short")
    (runEndpoints (crypto := Demo.crypto) Demo.options
       [CallStart (lit "short") Demo.random1 0 Demo.baseURL;
        CallStart Demo.alice Demo.random1 0 Demo.baseURL] Adapter.empty)
  = None.
Proof.
  rewrite (proj1 (endpoints_reject_short_address (crypto := Demo.crypto)
                    Demo.options (lit "short")
                    [CallStart (lit "short") Demo.random1 0 Demo.baseURL;
                     CallStart Demo.alice Demo.random1 0 Demo.baseURL]
                    Adapter.empty eq_refl)).
  reflexivity.
Defined.

Lemma verify_NonceMissing_iff_witness :
  fst (Demo.verify Demo.alice Demo.greetingOnly Demo.signature1 1000 Demo.started)
  = NonceMissing.
Proof.
  apply (verify_NonceMissing_iff (crypto := Demo.crypto) Demo.options Demo.alice
           Demo.greetingOnly Demo.signature1 1000 Demo.started).
  vm_compute. exact I.
Defined.

Lemma verify_success_iff_witness :
  ∃ u session,
    fst (Demo.verify Demo.alice Demo.message1 Demo.signature1 1000 Demo.started)
    = Json u session.
Proof.
  apply (verify_success_iff (crypto := Demo.crypto) Demo.options Demo.alice
           Demo.message1 Demo.signature1 1000 Demo.started).
  split; [reflexivity|]. split.
  - exists Demo.record1. split; [reflexivity|reflexivity].
  - split; [reflexivity|]. split; [reflexivity|].
    intros a Ha. vm_compute in Ha. discriminate Ha.
Defined.

Lemma verify_401_iff_witness :
  status (fst (Demo.verify Demo.alice Demo.message1
                 (Demo.sign Demo.bob Demo.message1) 1000 Demo.started)) = 401%nat
  ∧ snd (Demo.verify Demo.alice Demo.message1
           (Demo.sign Demo.bob Demo.message1) 1000 Demo.started)
    = Adapter.deleteVerificationValue Demo.aliceId Demo.started.
Proof.
  destruct (verify_401_iff (crypto := Demo.crypto) Demo.options Demo.alice
              Demo.message1 (Demo.sign Demo.bob Demo.message1) 1000 Demo.started)
    as [Hiff Hstore].
  assert (H401 : status (fst (Demo.verify Demo.alice Demo.message1
                                (Demo.sign Demo.bob Demo.message1) 1000
                                Demo.started)) = 401%nat).
  { apply Hiff. split; [reflexivity|]. split.
    - exists Demo.record1. split; [reflexivity|reflexivity].
    - split; reflexivity. }
  split; [exact H401 | exact (Hstore H401)].
Defined.
